(** * typ: the test runner's execution engine

    A shallow embedding of [typ/runner.py] and of the metadata handling of
    [typ/arg_parser.py], with the properties of the engine stated and proved
    over it: outcome classification, the default classifier, the fallback
    loader, the per-unit worker function, the scheduler, the retry loop, the
    exit code and the metadata maps.

    Python values are modelled as follows: [int] as [Z], [str] as [string],
    [list] as [list], [dict] with string keys as [gmap string _], [set] of
    strings as [gset string], [None]-or-value as [option].  A call that can
    raise returns a [Completion]. *)

From stdpp Require Import base option list gmap strings relations sorting.
From Stdlib Require Import ZArith Lia Ascii.

Open Scope string_scope.
Open Scope Z_scope.
Open Scope list_scope.

Set Warnings "-clear-no-such-hyp,-register-all".

(** ** Python strings *)

Module PyStr.

(** [sep.join(parts)]. *)
Fixpoint join (sep : string) (parts : list string) : string :=
  match parts with
  | [] => ""
  | [p] => p
  | p :: rest => p +:+ sep +:+ join sep rest
  end.

(** [s.split(sep)] for a one-character separator: the pieces between the
    occurrences of [sep], so one piece more than there are occurrences. *)
Fixpoint split (sep : Ascii.ascii) (s : string) : list string :=
  match s with
  | EmptyString => [""]
  | String c rest =>
      if Ascii.eqb c sep then "" :: split sep rest
      else match split sep rest with
           | piece :: pieces => String c piece :: pieces
           | [] => [String c ""]
           end
  end.

(** [sep in s] for a one-character [sep]. *)
Fixpoint contains (sep : Ascii.ascii) (s : string) : bool :=
  match s with
  | EmptyString => false
  | String c rest => Ascii.eqb c sep || contains sep rest
  end.

(** Number of occurrences of a character. *)
Fixpoint count (sep : Ascii.ascii) (s : string) : nat :=
  match s with
  | EmptyString => O
  | String c rest => ((if Ascii.eqb c sep then 1 else 0) + count sep rest)%nat
  end.

End PyStr.

(** ** Exceptions and completions *)

(** The exceptions the modelled code can raise. *)
Inductive PyExc : Type :=
  | NameError (var : string)      (* includes UnboundLocalError *)
  | ValueError (msg : string)
  | KeyError (key : string)
  | AssertionError                (* a failed [assert] without message *)
  | SyntaxError (msg : string).

(** How a call ends: with a value or with a raised exception. *)
Inductive Completion (A : Type) : Type :=
  | Returned (a : A)
  | Raised (e : PyExc).
Arguments Returned {A} a.
Arguments Raised {A} e.

Definition is_returned {A} (c : Completion A) : bool :=
  match c with Returned _ => true | Raised _ => false end.

(** ** Data model *)

(** [json_results.ResultType]: the spec's three outcomes. *)
Inductive ResultType : Type := Pass | Failure | Skip.

#[global] Instance ResultType_eq_dec : EqDecision ResultType.
Proof. solve_decision. Defined.

(** [json_results.Result].  The class itself lives in [typ/json_results.py];
    the fields are the ones the runner passes and reads. *)
Record Result : Type := mkResult {
  name : string;
  actual : ResultType;
  started : Z;
  took : Z;
  worker : Z;
  expected : list ResultType;
  unexpected : bool;
  flaky : bool;
  code : Z;
  out : string;
  err : string;
  pid : Z
}.

(** The values [Result.__init__] gives to keyword arguments the caller leaves
    out.  The constructor is not part of the modelled files, so the defaults
    are a parameter of every function that relies on them. *)
Record ResultDefaults : Type := {
  default_expected : list ResultType;
  default_unexpected : bool;
  default_flaky : bool;
  default_code : Z;
  default_out : string;
  default_err : string;
  default_pid : Z
}.

(** [TestInput]. *)
Record TestInput : Type := mkTestInput {
  ti_name : string;
  ti_msg : string;
  ti_timeout : option Z;
  ti_expected : option (list ResultType)
}.

(** [TestInput(name)] and [TestInput(name, msg)]. *)
Definition TestInput_of (n : string) : TestInput := mkTestInput n "" None None.
Definition TestInput_msg (n msg : string) : TestInput := mkTestInput n msg None None.

(** [TestSet]: the three buckets (context and hooks are carried by the
    worker model, not here). *)
Record TestSet : Type := mkTestSet {
  parallel_tests : list TestInput;
  isolated_tests : list TestInput;
  tests_to_skip : list TestInput
}.

(** [unittest.TestResult] after running one test: every recorded entry is a
    pair of the test's id and the text recorded with it. *)
Record TestResult : Type := mkTestResult {
  failures : list (string * string);
  errors : list (string * string);
  skipped : list (string * string);
  expectedFailures : list (string * string);
  unexpectedSuccesses : list string
}.

(** A fresh [unittest.TestResult()]. *)
Definition TestResult_new : TestResult := mkTestResult [] [] [] [] [].

(** ** Outcome classification *)

(** [lst[0][1]] on a list known to be non-empty; the empty case is never
    reached from [_result_from_test_result]. *)
Definition first_text (l : list (string * string)) : string :=
  match l with
  | (_, text) :: _ => text
  | [] => ""
  end.

(** Python truthiness of a list. *)
Definition truthy {A} (l : list A) : bool :=
  match l with [] => false | _ :: _ => true end.

(** [_result_from_test_result] (runner.py, lines 698-737). *)
Definition _result_from_test_result (test_result : TestResult)
    (test_name : string) (start took0 : Z) (out0 err0 : string)
    (worker_num pid0 : Z) : Result :=
  let flaky0 := false in
  if truthy (failures test_result) then
    mkResult test_name Failure start took0 worker_num [Pass] true flaky0 1
             out0 (err0 +:+ first_text (failures test_result)) pid0
  else if truthy (errors test_result) then
    mkResult test_name Failure start took0 worker_num [Pass] true flaky0 1
             out0 (err0 +:+ first_text (errors test_result)) pid0
  else if truthy (skipped test_result) then
    mkResult test_name Skip start took0 worker_num [Skip] false flaky0 0
             out0 (err0 +:+ first_text (skipped test_result)) pid0
  else if truthy (expectedFailures test_result) then
    mkResult test_name Failure start took0 worker_num [Failure] false flaky0 1
             out0 (err0 +:+ first_text (expectedFailures test_result)) pid0
  else if truthy (unexpectedSuccesses test_result) then
    mkResult test_name Pass start took0 worker_num [Failure] true flaky0 0
             out0 err0 pid0
  else
    mkResult test_name Pass start took0 worker_num [Pass] false flaky0 0
             out0 err0 pid0.

(** What the classification decides about a Result. *)
Definition verdict (r : Result) : ResultType * list ResultType * bool * Z :=
  (actual r, expected r, unexpected r, code r).

(** ** Configuration *)

(** The fields of the [argparse] namespace that the modelled code reads or
    writes ([self.args] in the runner, [rargs] in the parser). *)
Record Args : Type := mkArgs {
  args_jobs : Z;
  args_retry_limit : Z;
  args_metadata : list string;
  args_skip : list string;
  args_isolate : list string;
  args_suffixes : list string;
  args_coverage_omit : list string;
  args_test_results_server : option string;
  args_builder_name : option string;
  args_master_name : option string;
  args_test_type : option string;
  args_debugger : bool;
  args_coverage : bool;
  args_passthrough : bool;
  args_dry_run : bool;
  args_list_only : bool;
  args_verbose : Z;
  args_overwrite : option bool
}.

(** ** Host and statistics *)

(** [Host] as the worker sees it: the process id, a clock (any sequence of
    readings, read in order), and the output capture. *)
Record Host : Type := mkHost {
  h_pid : Z;
  h_clock : nat -> Z;
  h_reads : nat;
  h_capturing : bool;
  h_diverted : bool;
  h_out : string;
  h_err : string
}.

(** [h.time()]. *)
Definition h_time (h : Host) : Z * Host :=
  (h_clock h (h_reads h),
   mkHost (h_pid h) (h_clock h) (S (h_reads h)) (h_capturing h) (h_diverted h)
          (h_out h) (h_err h)).

(** [h.capture_output(divert=...)]: starts capturing into empty buffers. *)
Definition capture_output (divert : bool) (h : Host) : Host :=
  mkHost (h_pid h) (h_clock h) (h_reads h) true divert "" "".

(** What a running test writes while the capture is active. *)
Definition h_write (o e : string) (h : Host) : Host :=
  mkHost (h_pid h) (h_clock h) (h_reads h) (h_capturing h) (h_diverted h)
         (h_out h +:+ o) (h_err h +:+ e).

(** [h.restore_output()]: ends the capture and returns what was captured. *)
Definition restore_output (h : Host) : (string * string) * Host :=
  ((h_out h, h_err h),
   mkHost (h_pid h) (h_clock h) (h_reads h) false false "" "").

(** The counters of [Stats] that the runner updates. *)
Record Stats : Type := mkStats {
  total : Z;
  stats_started : Z;
  stats_finished : Z
}.

(** ** Test cases and the loader *)

(** A [unittest.TestCase]: its [id()] and what running it records and writes. *)
Record TestCase : Type := mkTestCase {
  tc_id : string;
  tc_run : TestResult;
  tc_out : string;
  tc_err : string
}.

(** A suite, as [list(suite)] enumerates it. *)
Definition Suite : Type := list TestCase.

(** What iterating over the suite of a module gives: test cases, or
    objects that are not test cases, such as the suite that
    [loadTestsFromModule] makes for each test class of a module without
    [load_tests]. *)
Inductive SuiteEl : Type :=
  | ElCase (test_case : TestCase)
  | ElSuite.

Definition ModuleSuite : Type := list SuiteEl.

(** The loader and the import machinery, as the worker uses them.
    [loadTestsFromName name] is [inl msg] when the call raises an exception
    [e] with [str(e) = msg], and [inr suite] when it returns.
    [load_module name] is [importlib.import_module(name)] followed by
    [loader.loadTestsFromModule(module)] (lines 753-758):
    [Returned None] when the import raises [ImportError], which the caller
    catches; [Raised e] when the import raises another exception or
    [loadTestsFromModule] raises, which the caller does not catch;
    [Returned (Some suite)] with the suite of the module otherwise. *)
Record Loader : Type := mkLoader {
  loadTestsFromName : string -> string + Suite;
  load_module : string -> Completion (option ModuleSuite)
}.

(** ** Classifier *)

Section Classifier.

(** [fnmatch.fnmatch name glob] of the Python library. *)
Variable fnmatch : string -> string -> bool.

(** [_matches] (runner.py, lines 542-543). *)
Definition _matches (n : string) (globs : list string) : bool :=
  existsb (fun glob => fnmatch n glob) globs.

(** The closure returned by [_default_classifier] (lines 546-556): appends a
    [TestInput] to one bucket of [test_set]. *)
Definition default_classifier (args : Args) (test_set : TestSet)
    (test : TestCase) : TestSet :=
  let n := tc_id test in
  if _matches n (args_skip args) then
    mkTestSet (parallel_tests test_set) (isolated_tests test_set)
              (tests_to_skip test_set ++ [TestInput_msg n "skipped by request"])
  else if _matches n (args_isolate args) then
    mkTestSet (parallel_tests test_set)
              (isolated_tests test_set ++ [TestInput_of n])
              (tests_to_skip test_set)
  else
    mkTestSet (parallel_tests test_set ++ [TestInput_of n])
              (isolated_tests test_set) (tests_to_skip test_set).

(** [add_tests] of [_test_adder] over an already flattened suite of real
    test cases: the classifier is applied to each in turn. *)
Definition add_tests (args : Args) (test_set : TestSet) (suite : Suite)
    : TestSet :=
  fold_left (default_classifier args) suite test_set.

(** What a test set built by the default classifier satisfies: skipped
    inputs carry the standard message and match a skip glob; the others
    match none. *)
Definition classified (args : Args) (ts : TestSet) : Prop :=
  (∀ ti, ti ∈ tests_to_skip ts →
      ti_msg ti = "skipped by request" ∧
      _matches (ti_name ti) (args_skip args) = true) ∧
  (∀ ti, ti ∈ parallel_tests ts ++ isolated_tests ts →
      _matches (ti_name ti) (args_skip args) = false).

End Classifier.

(** ** Skipped units *)

(** The [Stats] object is made with the host's clock as its time function
    ([Stats(args.status_format, h.time, ...)], lines 165 and 300), and
    [typ/stats.py] is not among the modelled files: [stats.add_time()] reads
    that clock once, and [stats.format()] reads it as often as the status
    format asks for the elapsed time.  [format_started] and
    [format_finished] are the readings the [stats.format()] call of
    [_print_test_started] and of [_print_test_finished] takes: none when the
    call is not made ([--quiet], no [--overwrite]) or the format shows no
    time, as the default format does. *)
Record PrintReads : Type := mkPrintReads {
  format_started : nat;
  format_finished : nat
}.

(** [n] readings of the clock, the values not kept. *)
Definition h_read_times (n : nat) (h : Host) : Host :=
  Nat.iter n (fun h0 => (h_time h0).2) h.

(** [_print_test_started] (lines 387-390), as far as the host's clock goes;
    the text handed to the printer is not modelled. *)
Definition _print_test_started (pr : PrintReads) (h : Host) : Host :=
  h_read_times (format_started pr) h.

(** [_print_test_finished] (lines 392-432), as far as the host's clock
    goes: [stats.add_time()] (line 393) for every Result, then the
    [stats.format()] of the line it prints. *)
Definition _print_test_finished (pr : PrintReads) (h : Host) : Host :=
  h_read_times (format_finished pr) (h_time h).2.

(** One iteration of the loop of [_skip_tests] (lines 345-356). *)
Definition skip_one (pr : PrintReads) (dflt : ResultDefaults)
    (test_input : TestInput)
    (st : Host * Stats * list Result) : Host * Stats * list Result :=
  let '(h, stats, results) := st in
  let '(last, h1) := h_time h in
  let stats1 := mkStats (total stats) (stats_started stats + 1)
                        (stats_finished stats) in
  let h2 := _print_test_started pr h1 in
  let '(now, h3) := h_time h2 in
  let result :=
    mkResult (ti_name test_input) Skip last (now - last) 0 [Skip]
             (default_unexpected dflt) (default_flaky dflt) (default_code dflt)
             (ti_msg test_input) (default_err dflt) (default_pid dflt) in
  let stats2 :=
    mkStats (total stats1) (stats_started stats1) (stats_finished stats1 + 1) in
  let h4 := _print_test_finished pr h3 in
  (h4, stats2, results ++ [result]).

(** [_skip_tests]: no worker is involved, the Results are built in place. *)
Definition _skip_tests (pr : PrintReads) (dflt : ResultDefaults) (h : Host)
    (stats : Stats) (results : list Result) (tests : list TestInput)
    : Host * Stats * list Result :=
  fold_left (fun st test_input => skip_one pr dflt test_input st) tests
            (h, stats, results).

(** What [_skip_tests] makes of one skipped unit, up to the clock readings:
    a Skip Result with the unit's name, carrying its message as output. *)
Definition skip_result_of (dflt : ResultDefaults) (ti : TestInput)
    (r : Result) : Prop :=
  name r = ti_name ti ∧ actual r = Skip ∧ expected r = [Skip] ∧
  out r = ti_msg ti ∧ worker r = 0 ∧ flaky r = default_flaky dflt.

(** ** The worker: loading and running one unit *)

(** The per-worker record [_Child], with the fields the worker function uses. *)
Record Child : Type := mkChild {
  worker_num : Z;
  passthrough : bool;
  dry_run : bool;
  debugger : bool;
  loaded_suites : gmap string (option ModuleSuite)
}.

Definition set_loaded_suites (child : Child)
    (m : gmap string (option ModuleSuite)) : Child :=
  mkChild (worker_num child) (passthrough child) (dry_run child)
          (debugger child) m.

(** The [for test_case in suite: ... break] of [_load_via_load_tests]
    (lines 762-766): the first test case of the suite whose id is the
    requested name, if any.  The [assert] of line 763 fails on an element
    that is not a test case, when the loop gets to it. *)
Fixpoint first_with_id (test_name : string) (suite : ModuleSuite)
    : Completion (option TestCase) :=
  match suite with
  | [] => Returned None
  | ElSuite :: _ => Raised AssertionError
  | ElCase test_case :: rest =>
      if String.eqb (tc_id test_case) test_name
      then Returned (Some test_case)
      else first_with_id test_name rest
  end.

(** One iteration of the [while comps:] loop of [_load_via_load_tests]
    (lines 748-767) for the prefix [n], on the cache and the suite built so
    far: the cache it leaves, and the suite built, or the exception
    raised. *)
Definition load_prefix (loader : Loader) (test_name n : string)
    (st : gmap string (option ModuleSuite) * Suite)
    : gmap string (option ModuleSuite) * Completion Suite :=
  let '(cache, new_suite) := st in
  let imported :=
    match cache !! n with
    | None =>
        match load_module loader n with
        | Returned suite => Returned (<[n := suite]> cache)
        | Raised e => Raised e
        end
    | Some _ => Returned cache
    end in
  match imported with
  | Raised e => (cache, Raised e)
  | Returned cache1 =>
      let suite := default None (cache1 !! n) in
      match suite with
      | Some tests =>
          match first_with_id test_name tests with
          | Returned (Some test_case) =>
              (cache1, Returned (new_suite ++ [test_case]))
          | Returned None => (cache1, Returned new_suite)
          | Raised e => (cache1, Raised e)
          end
      | None => (cache1, Returned new_suite)
      end
  end.

(** The loop itself.  [rcomps] is [comps] in reverse, so that [comps.pop()]
    is the tail and the current prefix is ['.'.join(comps)].  An exception
    ends the loop; the cache keeps what was put into it. *)
Fixpoint load_walk (loader : Loader) (test_name : string)
    (rcomps : list string) (st : gmap string (option ModuleSuite) * Suite)
    : gmap string (option ModuleSuite) * Completion Suite :=
  match rcomps with
  | [] => (st.1, Returned st.2)
  | _ :: shorter =>
      match load_prefix loader test_name (PyStr.join "." (rev rcomps)) st with
      | (cache1, Returned new_suite1) =>
          load_walk loader test_name shorter (cache1, new_suite1)
      | (cache1, Raised e) => (cache1, Raised e)
      end
  end.

(** [_load_via_load_tests] (lines 740-768): the new suite, or the exception
    raised, and the child with its cache updated. *)
Definition _load_via_load_tests (loader : Loader) (child : Child)
    (test_name : string) : Completion Suite * Child :=
  let comps := PyStr.split "."%char test_name in
  let '(cache, new_suite) :=
    load_walk loader test_name (rev comps) (loaded_suites child, []) in
  (new_suite, set_loaded_suites child cache).

(** The prefixes the walk visits, longest first. *)
Fixpoint prefixes_desc (rcomps : list string) : list string :=
  match rcomps with
  | [] => []
  | _ :: shorter => PyStr.join "." (rev rcomps) :: prefixes_desc shorter
  end.

(** [_run_one_test] (lines 635-684).  [py3] tells whether the interpreter is
    Python 3, where the name bound by [except Exception as e] is unbound
    again when the handler ends; under Python 2 it stays bound.  In both, [e]
    was never bound when [loadTestsFromName] returned normally.  An
    exception raised by [_load_via_load_tests] inside the handler leaves the
    function, with the capture still active. *)
Definition _run_one_test (py3 : bool) (dflt : ResultDefaults) (loader : Loader)
    (child : Child) (h : Host) (test_input : TestInput)
    : Completion Result * Child * Host :=
  let pid0 := h_pid h in
  let test_name := ti_name test_input in
  let '(start, h1) := h_time h in
  let h2 := capture_output (negb (passthrough child)) h1 in
  let '(loaded, e, child1) :=
    match loadTestsFromName loader test_name with
    | inr suite => (Returned suite, None, child)
    | inl msg =>
        let '(suite, child1) := _load_via_load_tests loader child test_name in
        (suite, if py3 then None else Some msg, child1)
    end in
  match loaded with
  | Raised exc => (Raised exc, child1, h2)
  | Returned [test_case] =>
      let test_result :=
        if dry_run child1 then TestResult_new else tc_run test_case in
      let h3 :=
        if dry_run child1 then h2
        else h_write (tc_out test_case) (tc_err test_case) h2 in
      let '((out0, err0), h4) := restore_output h3 in
      let '(now, h5) := h_time h4 in
      let took0 := now - start in
      (Returned (_result_from_test_result test_result test_name start took0
                   out0 err0 (worker_num child1) pid0),
       child1, h5)
  | Returned _ =>
      match e with
      | None => (Raised (NameError "e"), child1, h2)
      | Some msg =>
          let err0 := "failed to load " +:+ test_name +:+ ": " +:+ msg in
          let '(_, h3) := restore_output h2 in
          (Returned (mkResult test_name Failure start 0 (worker_num child1)
                       (default_expected dflt) true (default_flaky dflt) 1
                       (default_out dflt) err0 pid0),
           child1, h3)
      end
  end.

(** ** Sorting test inputs *)

(** Insertion into a list sorted by name, before the first element whose
    name is not smaller: equal names keep their order. *)
Fixpoint insert_by_name (x : TestInput) (l : list TestInput) : list TestInput :=
  match l with
  | [] => [x]
  | y :: rest =>
      if String.leb (ti_name x) (ti_name y) then x :: y :: rest
      else y :: insert_by_name x rest
  end.

(** [_sort_inputs] (lines 771-772): [sorted(inps, key=lambda inp: inp.name)],
    a stable sort by name. *)
Definition _sort_inputs (inps : list TestInput) : list TestInput :=
  foldr insert_by_name [] inps.

(** [Runner._make_test_set] (lines 323-332). *)
Definition _make_test_set (par iso skp : list TestInput) : TestSet :=
  mkTestSet (_sort_inputs par) (_sort_inputs iso) (_sort_inputs skp).

(** The end of [find_tests] (lines 224-226): the buckets are sorted. *)
Definition sort_test_set (test_set : TestSet) : TestSet :=
  mkTestSet (_sort_inputs (parallel_tests test_set))
            (_sort_inputs (isolated_tests test_set))
            (_sort_inputs (tests_to_skip test_set)).

(** ** The scheduler *)

(** The variables of [_run_list] while its loop runs.  [rl_pool] holds the
    units handed to the pool with [pool.send] whose Result [pool.get] has
    not returned yet; [rl_workers] is the number of worker processes the
    pool was made with. *)
Record RunList : Type := mkRunList {
  rl_pending : list TestInput;     (* test_inputs *)
  rl_running : gset string;        (* running_jobs *)
  rl_pool : list TestInput;
  rl_workers : Z;
  rl_results : list Result;        (* result_set.results *)
  rl_stats : Stats
}.

(** Lines 359-368: [None] when [_run_list] returns before making a pool. *)
Definition run_list_start (test_inputs : list TestInput) (jobs : Z)
    (results : list Result) (stats : Stats) : option RunList :=
  let jobs1 := Z.min (Z.of_nat (length test_inputs)) jobs in
  if (jobs1 =? 0)%Z then None
  else Some (mkRunList test_inputs ∅ [] jobs1 results stats).

(** The guard of the inner loop (line 371); [jobs_limit] is
    [self.args.jobs]. *)
Definition can_send (jobs_limit : Z) (s : RunList) : bool :=
  truthy (rl_pending s) && (Z.of_nat (size (rl_running s)) <? jobs_limit)%Z.

(** The guard of the outer loop (line 370). *)
Definition loop_guard (s : RunList) : bool :=
  truthy (rl_pending s) || negb (bool_decide (rl_running s = ∅)).

(** The body of the inner loop (lines 372-376) for the head [test_input] of
    the pending list. *)
Definition send (test_input : TestInput) (rest : list TestInput)
    (s : RunList) : RunList :=
  mkRunList rest
            (rl_running s ∪ {[ti_name test_input]})
            (rl_pool s ++ [test_input])
            (rl_workers s)
            (rl_results s)
            (mkStats (total (rl_stats s)) (stats_started (rl_stats s) + 1)
                     (stats_finished (rl_stats s))).

(** Lines 378-382 for a Result [r] returned by [pool.get()], which leaves
    [pool1] in the pool.  [running_jobs.remove] raises [KeyError] when the
    name is not in the set. *)
Definition receive (r : Result) (pool1 : list TestInput) (s : RunList)
    : Completion RunList :=
  if bool_decide (name r ∈ rl_running s) then
    Returned (mkRunList (rl_pending s)
                (rl_running s ∖ {[name r]})
                pool1
                (rl_workers s)
                (rl_results s ++ [r])
                (mkStats (total (rl_stats s)) (stats_started (rl_stats s))
                         (stats_finished (rl_stats s) + 1)))
  else Raised (KeyError (name r)).

(** Modelled from the spec: [typ.pool] ([make_pool], [send], [get]) is not
    among the modelled files.  The spec has the pool pass messages only
    (submit unit, receive Result) and signal completions in the order they
    complete, not the order of submission: [pool.get()] returns the Result
    of any one unit sent and not yet returned, named after that unit. *)
Definition pool_returns (pool0 : list TestInput) (r : Result)
    (pool1 : list TestInput) : Prop :=
  ∃ before test_input after,
    pool0 = before ++ test_input :: after ∧
    pool1 = before ++ after ∧
    name r = ti_name test_input.

(** One step of the loop of [_run_list]: a send while the inner guard holds,
    otherwise a receive while the outer guard holds.  A receive whose
    [remove] raises ends the call with the exception: it leads to no
    further state. *)
Inductive run_list_step (jobs_limit : Z) : RunList → RunList → Prop :=
  | step_send s test_input rest :
      rl_pending s = test_input :: rest →
      can_send jobs_limit s = true →
      run_list_step jobs_limit s (send test_input rest s)
  | step_receive s r pool1 s1 :
      can_send jobs_limit s = false →
      loop_guard s = true →
      pool_returns (rl_pool s) r pool1 →
      receive r pool1 s = Returned s1 →
      run_list_step jobs_limit s s1.

(** The states the loop of [_run_list] can be in. *)
Definition run_list_reaches (jobs_limit : Z) (s0 s : RunList) : Prop :=
  rtc (run_list_step jobs_limit) s0 s.

(** Units in flight: handed to the pool and not yet returned. *)
Definition in_flight (s : RunList) : Z := Z.of_nat (length (rl_pool s)).

(** [_run_list] as a relation between the Results before and after: either
    it returns at once, or its loop runs until the outer guard fails. *)
Inductive run_list_produces (jobs_limit : Z) (test_inputs : list TestInput)
    (jobs : Z) (stats : Stats) (results final : list Result) : Prop :=
  | run_list_nothing :
      run_list_start test_inputs jobs results stats = None →
      final = results →
      run_list_produces jobs_limit test_inputs jobs stats results final
  | run_list_loop s0 s :
      run_list_start test_inputs jobs results stats = Some s0 →
      run_list_reaches jobs_limit s0 s →
      loop_guard s = false →
      final = rl_results s →
      run_list_produces jobs_limit test_inputs jobs stats results final.

(** [Runner._run_one_set] (lines 334-342): the skipped units first, then
    the parallel bucket with [self.args.jobs], then the isolated bucket with
    [1].  The counters of [stats] do not influence the Results and are left
    out of the relation. *)
Definition run_one_set_produces (pr : PrintReads) (dflt : ResultDefaults)
    (jobs_limit : Z) (h : Host) (stats : Stats) (test_set : TestSet)
    (results final : list Result) : Prop :=
  ∃ after_parallel,
    run_list_produces jobs_limit (parallel_tests test_set) jobs_limit stats
      (_skip_tests pr dflt h stats results (tests_to_skip test_set)).2
      after_parallel ∧
    run_list_produces jobs_limit (isolated_tests test_set) 1 stats
      after_parallel final.

(** ** The retry loop *)

(** Modelled from the spec: [json_results.failed_test_names] is not among the
    modelled files.  The spec gives it as the names whose latest actual
    outcome is Failure: going through the collection in order, a Failure
    puts the name in the set and any other outcome takes it out. *)
Definition failed_test_names (results : list Result) : gset string :=
  fold_left
    (fun names r =>
       if bool_decide (actual r = Failure) then names ∪ {[name r]}
       else names ∖ {[name r]})
    results ∅.

(** What the statements of the retry loop itself do to the printer, in
    order; the progress lines printed inside [_run_one_set] are not part of
    it. *)
Inductive RunnerEvent : Type :=
  | EvFlush                              (* self.flush() *)
  | EvPrintBlank                         (* self.print_('') *)
  | EvRetrying (attempt limit : Z)       (* the "Retrying failed tests" line *)
  | EvRunOneSet (tests : list TestInput).

Definition is_flush (ev : RunnerEvent) : bool :=
  match ev with EvFlush => true | _ => false end.

(** How many times the loop's own statements flushed the printer. *)
Definition flushes (evs : list RunnerEvent) : nat :=
  length (List.filter is_flush evs).

(** The variables the loop of [_run_tests] (lines 284-311) reads and
    writes. *)
Record RetryState : Type := mkRetryState {
  failed_tests : gset string;
  retry_limit : Z;
  result_set : list Result;
  overwrite : bool;                      (* self.args.overwrite *)
  should_overwrite : bool;               (* self.printer.should_overwrite *)
  verbose : Z;                           (* self.args.verbose *)
  events : list RunnerEvent
}.

(** The guard [while retry_limit and failed_tests] (line 287). *)
Definition retry_guard (st : RetryState) : bool :=
  negb (retry_limit st =? 0)%Z && negb (bool_decide (failed_tests st = ∅)).

(** The test set of a retry pass (lines 302-306): the failed names, as
    isolated tests, sorted. *)
Definition tests_to_retry (failed : gset string) : TestSet :=
  _make_test_set [] (map TestInput_of (elements failed)) [].

(** The body of the loop (lines 288-311).  [limit0] is
    [self.args.retry_limit]; [retry_set] is what [_run_one_set] left in the
    fresh [ResultSet] of the pass. *)
Definition retry_body (limit0 : Z) (retry_set : list Result)
    (st : RetryState) : RetryState :=
  let first := (retry_limit st =? limit0)%Z in
  mkRetryState
    (failed_test_names retry_set)
    (retry_limit st - 1)
    (result_set st ++ retry_set)
    (if first then false else overwrite st)
    (if first then false else should_overwrite st)
    (if first then Z.min (verbose st) 1 else verbose st)
    (events st ++ (if first then [EvFlush] else []) ++
       [EvPrintBlank;
        EvRetrying (limit0 - retry_limit st + 1) limit0;
        EvPrintBlank;
        EvRunOneSet (isolated_tests (tests_to_retry (failed_tests st)))]).

(** The loop.  [passes] gives, for each pass in turn, the Results its
    [_run_one_set] collects; [None] when the loop asks for a pass that
    [passes] does not hold. *)
Fixpoint retry_loop (limit0 : Z) (passes : list (list Result))
    (st : RetryState) : option RetryState :=
  if retry_guard st then
    match passes with
    | [] => None
    | retry_set :: later => retry_loop limit0 later (retry_body limit0 retry_set st)
    end
  else Some st.

(** The variables of the loop after its body has run for the passes
    [used], one after the other, the guard left aside. *)
Definition after_passes (limit0 : Z) (used : list (list Result))
    (st : RetryState) : RetryState :=
  fold_left (fun s retry_set => retry_body limit0 retry_set s) used st.

(** The state with which the loop is entered after the first pass left
    [results] in the collection (lines 284-285). *)
Definition retry_start (args : Args) (should_overwrite0 : bool)
    (results : list Result) : RetryState :=
  mkRetryState (failed_test_names results) (args_retry_limit args) results
               (default false (args_overwrite args)) should_overwrite0
               (args_verbose args) [].

(** ** Exit code *)

(** Python truthiness of the value of a string option: [None] and the
    empty string are false. *)
Definition given (o : option string) : bool :=
  match o with
  | None => false
  | Some s => negb (String.eqb s "")
  end.

(** Modelled from the spec: the full-results document and
    [json_results.exit_code_from_full_results] are not among the modelled
    files.  Of the document only [num_failures_by_type], a mapping from
    outcome to count, matters here; the spec's exit-code law makes the code
    0 when the count of failures is zero and 1 otherwise. *)
Record FullResults : Type := mkFullResults {
  num_failures_by_type : ResultType → Z
}.

Definition num_failures (full_results : FullResults) : Z :=
  num_failures_by_type full_results Failure.

Definition exit_code_from_full_results (full_results : FullResults) : Z :=
  if (num_failures full_results =? 0)%Z then 0 else 1.

(** The value [_run_tests] returns once the passes are over (lines 316-321),
    for the document [make_full_results] built. *)
Definition run_tests_returns (full_results : FullResults)
    : Z * option FullResults :=
  (exit_code_from_full_results full_results, Some full_results).

(** [Runner.upload_results] (lines 472-487); [fetch_raises] tells whether
    [h.fetch] raises. *)
Definition upload_results (args : Args) (fetch_raises : bool) : Z :=
  if negb (given (args_test_results_server args)) then 0
  else if fetch_raises then 1 else 0.

(** The part of [Runner.run] after [_run_tests] (lines 143-159) that
    decides the returned code. *)
Definition run_returns (args : Args) (fetch_raises : bool)
    (tests : Z * option FullResults) : Z :=
  let '(ret, full_results) := tests in
  match full_results with
  | Some _ =>
      let upload_ret := upload_results args fetch_raises in
      if (ret =? 0)%Z then upload_ret else ret
  | None => ret
  end.

(** ** Metadata: the parser's check and the trace's map *)

(** The error lines [parse_args] prints. *)
Inductive ParserMessage : Type :=
  | MalformedMetadata (val : string)
  | BuilderNameMissing
  | MasterNameMissing
  | TestTypeMissing
  | DebuggerNeedsPython2.

(** The loop over [rargs.metadata] (arg_parser.py, lines 173-176) on the
    parser's [exit_status] and printed lines. *)
Definition check_metadata (metadata : list string)
    (st : option Z * list ParserMessage) : option Z * list ParserMessage :=
  fold_left
    (fun st val =>
       if negb (PyStr.contains "="%char val)
       then (Some 2, st.2 ++ [MalformedMetadata val])
       else st)
    metadata st.

(** Lines 178-190: the fields that must come with [--test-results-server]. *)
Definition check_upload_fields (rargs : Args)
    (st : option Z * list ParserMessage) : option Z * list ParserMessage :=
  if given (args_test_results_server rargs) then
    let st1 := if given (args_builder_name rargs) then st
               else (Some 2, st.2 ++ [BuilderNameMissing]) in
    let st2 := if given (args_master_name rargs) then st1
               else (Some 2, st1.2 ++ [MasterNameMissing]) in
    if given (args_test_type rargs) then st2
    else (Some 2, st2.2 ++ [TestTypeMissing])
  else st.

(** [ArgumentParser.parse_args] (lines 166-212) from the namespace [rargs]
    that [argparse] produced, when it produced one: the namespace returned,
    the parser's [exit_status] and the lines printed.  [py_major] is
    [sys.version_info.major], [isatty] is [self._host.stdout.isatty()]. *)
Definition parse_args (py_major : Z) (isatty : bool) (rargs : Args)
    : Args * option Z * list ParserMessage :=
  let st1 := check_metadata (args_metadata rargs) (None, []) in
  let st2 := check_upload_fields rargs st1 in
  let suffixes :=
    if truthy (args_suffixes rargs) then args_suffixes rargs
    else ["*_test.py"; "*_unittest.py"] in
  let coverage_omit :=
    if truthy (args_coverage_omit rargs) then args_coverage_omit rargs
    else ["*/typ/*"; "*/site-packages/*"] in
  let st3 :=
    if args_debugger rargs && (py_major =? 3)%Z
    then (Some 2, st2.2 ++ [DebuggerNeedsPython2]) else st2 in
  let jobs1 := if args_debugger rargs then 1 else args_jobs rargs in
  let passthrough1 :=
    if args_debugger rargs then true else args_passthrough rargs in
  let jobs2 := if args_coverage rargs then 1 else jobs1 in
  let overwrite1 :=
    match args_overwrite rargs with
    | None => Some (isatty && (args_verbose rargs =? 0)%Z)
    | Some b => Some b
    end in
  (mkArgs jobs2 (args_retry_limit rargs) (args_metadata rargs)
          (args_skip rargs) (args_isolate rargs) suffixes coverage_omit
          (args_test_results_server rargs) (args_builder_name rargs)
          (args_master_name rargs) (args_test_type rargs)
          (args_debugger rargs) (args_coverage rargs) passthrough1
          (args_dry_run rargs) (args_list_only rargs) (args_verbose rargs)
          overwrite1,
   st3.1, st3.2).

(** What [Runner.main] does with the parser's [exit_status] (lines 88-94):
    a status set by the parser is returned and [run] is never called. *)
Definition main_before_run (exit_status : option Z) : option Z := exit_status.

(** [k, v = m.split('=')] (runner.py, line 514): the unpacking needs exactly
    two pieces, otherwise it raises [ValueError]. *)
Definition unpack_key_value (m : string) : Completion (string * string) :=
  match PyStr.split "="%char m with
  | [k; v] => Returned (k, v)
  | [] | [_] => Raised (ValueError "need more than 1 value to unpack")
  | _ => Raised (ValueError "too many values to unpack")
  end.

(** The loop that fills [trace['otherData']] (lines 512-515). *)
Fixpoint trace_other_data (metadata : list string)
    (other : gmap string string) : Completion (gmap string string) :=
  match metadata with
  | [] => Returned other
  | m :: rest =>
      match unpack_key_value m with
      | Returned (k, v) => trace_other_data rest (<[k := v]> other)
      | Raised e => Raised e
      end
  end.

(** A "complete" event of the trace, for one Result (lines 517-538): the
    fields of the event, and the Result whose fields fill its [args]. *)
Record TraceEvent : Type := mkTraceEvent {
  ev_name : string;
  ev_dur : Z;
  ev_ts : Z;
  ev_pid : Z;
  ev_tid : Z;
  ev_args : Result
}.

Record Trace : Type := mkTrace {
  traceEvents : list TraceEvent;
  otherData : gmap string string
}.

(** [Runner._trace_from_results] (lines 509-539); [started_time] is
    [self.stats.started_time]. *)
Definition _trace_from_results (args : Args) (started_time : Z)
    (results : list Result) : Completion Trace :=
  match trace_other_data (args_metadata args) ∅ with
  | Raised e => Raised e
  | Returned other =>
      Returned
        (mkTrace
           (map (fun result =>
                   mkTraceEvent (name result) (took result * 1000000)
                     ((started result - started_time) * 1000000)
                     (pid result) (worker result) result)
                results)
           other)
  end.

(** The text of an entry before its first ['='] and after it. *)
Fixpoint before_first (sep : Ascii.ascii) (s : string) : string :=
  match s with
  | EmptyString => ""
  | String c rest =>
      if Ascii.eqb c sep then "" else String c (before_first sep rest)
  end.

Fixpoint after_first (sep : Ascii.ascii) (s : string) : string :=
  match s with
  | EmptyString => ""
  | String c rest => if Ascii.eqb c sep then rest else after_first sep rest
  end.

(** ** Examples of inputs *)

(** [fnmatch.fnmatch] on patterns made of literal characters, [*] and [?]
    (no bracket expressions), on a case-sensitive platform.  The properties
    below are stated for any matcher; this one serves the examples. *)
Fixpoint fnmatch_plain_aux (pat : string) : string → bool :=
  match pat with
  | EmptyString => λ s, match s with EmptyString => true | _ => false end
  | String c pat1 =>
      if Ascii.eqb c "*"%char then
        fix star (s : string) : bool :=
          fnmatch_plain_aux pat1 s ||
          match s with EmptyString => false | String _ s1 => star s1 end
      else if Ascii.eqb c "?"%char then
        λ s, match s with
             | EmptyString => false
             | String _ s1 => fnmatch_plain_aux pat1 s1
             end
      else
        λ s, match s with
             | EmptyString => false
             | String d s1 => Ascii.eqb c d && fnmatch_plain_aux pat1 s1
             end
  end.

Definition fnmatch_plain (n glob : string) : bool := fnmatch_plain_aux glob n.

(** The namespace for an empty command line (the defaults given to
    [add_argument]), for a host with [cpu_count] processors. *)
Definition Args_default (cpu_count : Z) : Args :=
  mkArgs cpu_count 0 [] [] [] [] [] None None None None
         false false false false false 0 None.

Definition with_skip (globs : list string) (args : Args) : Args :=
  mkArgs (args_jobs args) (args_retry_limit args) (args_metadata args)
         globs (args_isolate args) (args_suffixes args)
         (args_coverage_omit args) (args_test_results_server args)
         (args_builder_name args) (args_master_name args)
         (args_test_type args) (args_debugger args) (args_coverage args)
         (args_passthrough args) (args_dry_run args) (args_list_only args)
         (args_verbose args) (args_overwrite args).

Definition with_metadata (metadata : list string) (args : Args) : Args :=
  mkArgs (args_jobs args) (args_retry_limit args) metadata
         (args_skip args) (args_isolate args) (args_suffixes args)
         (args_coverage_omit args) (args_test_results_server args)
         (args_builder_name args) (args_master_name args)
         (args_test_type args) (args_debugger args) (args_coverage args)
         (args_passthrough args) (args_dry_run args) (args_list_only args)
         (args_verbose args) (args_overwrite args).

Definition with_retry_limit (limit : Z) (args : Args) : Args :=
  mkArgs (args_jobs args) limit (args_metadata args)
         (args_skip args) (args_isolate args) (args_suffixes args)
         (args_coverage_omit args) (args_test_results_server args)
         (args_builder_name args) (args_master_name args)
         (args_test_type args) (args_debugger args) (args_coverage args)
         (args_passthrough args) (args_dry_run args) (args_list_only args)
         (args_verbose args) (args_overwrite args).

Definition with_upload (server builder master kind : string) (args : Args)
    : Args :=
  mkArgs (args_jobs args) (args_retry_limit args) (args_metadata args)
         (args_skip args) (args_isolate args) (args_suffixes args)
         (args_coverage_omit args) (Some server) (Some builder) (Some master)
         (Some kind) (args_debugger args) (args_coverage args)
         (args_passthrough args) (args_dry_run args) (args_list_only args)
         (args_verbose args) (args_overwrite args).

(** The printing calls under the default status format, which shows no
    time: only [stats.add_time()] reads the clock. *)
Definition default_reads : PrintReads := mkPrintReads 0 0.

(** A test case that passes without output. *)
Definition passing_test (n : string) : TestCase :=
  mkTestCase n TestResult_new "" "".

(** A host at the start of its clock, with no capture active. *)
Definition Host_start (clock : nat → Z) : Host :=
  mkHost 100 clock O false false "" "".

(** Constructor defaults under which omitted arguments are "empty". *)
Definition plain_defaults : ResultDefaults :=
  Build_ResultDefaults [Pass] false false 0 "" "" 0.

(** A loader for which no name resolves directly, while the modules
    [pkg.mod] and [pkg] both import and both load a test with the id
    [pkg.mod.test_a] through their [load_tests]. *)
Definition two_entry_points : Loader :=
  mkLoader
    (λ n, inl ("No module named " +:+ n))
    (λ n, if String.eqb n "pkg.mod"
          then Returned
                 (Some [ElCase (mkTestCase "pkg.mod.test_b" TestResult_new
                                  "" "");
                        ElCase (mkTestCase "pkg.mod.test_a" TestResult_new
                                  "from pkg.mod" "")])
          else if String.eqb n "pkg"
          then Returned
                 (Some [ElCase (mkTestCase "pkg.mod.test_a" TestResult_new
                                  "from pkg" "")])
          else Returned None).

(** A loader that resolves the name [pkg.mod] directly, to the two tests of
    that module, and [pkg.empty] to no test at all. *)
Definition whole_module : Loader :=
  mkLoader
    (λ n, if String.eqb n "pkg.mod"
          then inr [passing_test "pkg.mod.test_a"; passing_test "pkg.mod.test_b"]
          else if String.eqb n "pkg.empty" then inr []
          else inl ("No module named " +:+ n))
    (λ _, Returned None).

(** A worker's record before it has run anything. *)
Definition Child_start (num : Z) : Child := mkChild num false false false ∅.

(** The Result of a unit that failed unexpectedly, and of one that passed. *)
Definition failing_result (n : string) : Result :=
  mkResult n Failure 0 1 1 [Pass] true false 1 "" "AssertionError" 100.

Definition passing_result (n : string) : Result :=
  mkResult n Pass 0 1 1 [Pass] false false 0 "" "" 100.

(** ** Order on unit names *)

(** The order [sorted] uses on unit names: strings compare by their
    characters' codes, a proper prefix coming first. *)
Definition name_le (x y : TestInput) : Prop :=
  String.leb (ti_name x) (ti_name y) = true.

(** The inputs with a given name, in the order they occur. *)
Definition with_name (n : string) (l : list TestInput) : list TestInput :=
  List.filter (λ x, String.eqb (ti_name x) n) l.

(** ** The fallback loader, without its loop *)

(** The suite the walk uses for a prefix: the one in [loaded_suites] when
    the prefix is a key of it, else what importing the prefix gives, or the
    exception the import raises. *)
Definition suite_for (loader : Loader)
    (cache : gmap string (option ModuleSuite)) (n : string)
    : Completion (option ModuleSuite) :=
  match cache !! n with
  | Some suite => Returned suite
  | None => load_module loader n
  end.

(** What one prefix adds to the new suite: the first test of its suite with
    the requested id, if the prefix has a suite and the suite such a test;
    or the exception raised at the prefix. *)
Definition match_at (test_name : string)
    (suite : Completion (option ModuleSuite)) : Completion Suite :=
  match suite with
  | Raised e => Raised e
  | Returned None => Returned []
  | Returned (Some tests) =>
      match first_with_id test_name tests with
      | Returned (Some test_case) => Returned [test_case]
      | Returned None => Returned []
      | Raised e => Raised e
      end
  end.

(** What the prefixes add, one after the other, up to the first exception. *)
Fixpoint collect (parts : list (Completion Suite)) : Completion Suite :=
  match parts with
  | [] => Returned []
  | Raised e :: _ => Raised e
  | Returned part :: rest =>
      match collect rest with
      | Returned more => Returned (part ++ more)
      | Raised e => Raised e
      end
  end.

(** ** The start of [_run_tests] *)

(** The separator of ['\n'.join(all_tests)]. *)
Definition newline : string := String (Ascii.ascii_of_nat 10) "".

(** [all_tests] (lines 273-276): the names of all three buckets, sorted. *)
Definition all_tests (test_set : TestSet) : list string :=
  map ti_name
      (_sort_inputs (parallel_tests test_set ++ isolated_tests test_set ++
                     tests_to_skip test_set)).

(** Lines 269-281 of [_run_tests]: the value returned before any pass is
    run, if one is ([None] when the method goes on to the passes), and the
    lines printed. *)
Definition run_tests_before_passes (args : Args) (test_set : TestSet)
    : option (Z * option FullResults) * list string :=
  if negb (truthy (parallel_tests test_set)) &&
     negb (truthy (isolated_tests test_set))
  then (Some (1, None), ["No tests to run."])
  else if args_list_only args
  then (Some (0, None), [PyStr.join newline (all_tests test_set)])
  else (None, []).

(** ** The test adder over nested suites *)

(** [s.startswith(p)] and [p in s] for strings. *)
Definition str_startswith (s p : string) : bool := String.prefix p s.

Definition str_in (p s : string) : bool :=
  match String.index 0 p s with Some _ => true | None => false end.

(** What the loader hands to [add_tests]: a [TestSuite] of such objects, or
    a test case.  Of a test case [add_tests] may read [_testMethodName] and
    call the method of that name: [method_raises] is the [str] of the
    exception the call raises, if it raises. *)
Inductive SuiteObj : Type :=
  | ObjSuite (els : list SuiteObj)
  | ObjCase (test : TestCase) (method_name : string)
            (method_raises : option string).

(** The test for the placeholders the [unittest] loader makes for a module
    that failed to import or whose [load_tests] failed (lines 565-567). *)
Definition is_load_failure (test : TestCase) : bool :=
  str_startswith (tc_id test) "unittest.loader.LoadTestsFailure" ||
  str_startswith (tc_id test) "unittest.loader.ModuleImportFailure".

(** [add_tests] on an object that is not a suite (lines 565-580): [inl] is
    the message of the [_AddTestsError] raised. *)
Definition add_case (classifier : TestSet → TestCase → TestSet)
    (test : TestCase) (method_name : string) (method_raises : option string)
    (test_set : TestSet) : string + TestSet :=
  if is_load_failure test then
    match method_raises with
    | Some e =>
        if str_in "LoadTests" (tc_id test)
        then inl (method_name +:+ ".load_tests() failed: " +:+ e)
        else inl e
    | None => inr test_set
    end
  else inr (classifier test_set test).

(** [add_tests] of [_test_adder] (lines 559-581).  When it raises, the
    test set it was filling is dropped by [find_tests], which returns
    [(1, None)]. *)
Fixpoint add_tests_obj (classifier : TestSet → TestCase → TestSet)
    (obj : SuiteObj) (test_set : TestSet) : string + TestSet :=
  match obj with
  | ObjSuite els =>
      (fix each (els : list SuiteObj) (test_set : TestSet)
         : string + TestSet :=
         match els with
         | [] => inr test_set
         | el :: rest =>
             match add_tests_obj classifier el test_set with
             | inl e => inl e
             | inr test_set1 => each rest test_set1
             end
         end) els test_set
  | ObjCase test method_name method_raises =>
      add_case classifier test method_name method_raises test_set
  end.

(** The objects of a suite that are not suites, from left to right. *)
Fixpoint leaves (obj : SuiteObj)
    : list (TestCase * string * option string) :=
  match obj with
  | ObjSuite els => flat_map leaves els
  | ObjCase test method_name method_raises =>
      [(test, method_name, method_raises)]
  end.

(** The loop of [add_tests] over a suite without nesting. *)
Fixpoint add_leaves (classifier : TestSet → TestCase → TestSet)
    (ls : list (TestCase * string * option string)) (test_set : TestSet)
    : string + TestSet :=
  match ls with
  | [] => inr test_set
  | (test, method_name, method_raises) :: rest =>
      match add_case classifier test method_name method_raises test_set with
      | inl e => inl e
      | inr test_set1 => add_leaves classifier rest test_set1
      end
  end.

(** Induction over nested suites. *)
Fixpoint SuiteObj_nested_ind (P : SuiteObj → Prop)
    (Hsuite : ∀ els, Forall P els → P (ObjSuite els))
    (Hcase : ∀ test method_name method_raises,
        P (ObjCase test method_name method_raises))
    (obj : SuiteObj) : P obj :=
  match obj with
  | ObjSuite els =>
      Hsuite els
        ((fix each (els : list SuiteObj) : Forall P els :=
            match els with
            | [] => List.Forall_nil P
            | el :: rest =>
                @List.Forall_cons SuiteObj P el rest
                  (SuiteObj_nested_ind P Hsuite Hcase el) (each rest)
            end) els)
  | ObjCase test method_name method_raises =>
      Hcase test method_name method_raises
  end.

(** * Properties *)

(** ** Outcome classification *)

Lemma truthy_nonempty {A} (l : list A) : truthy l = true ↔ l ≠ [].
Proof. destruct l; simpl; split; intros; congruence. Qed.

Lemma truthy_empty {A} (l : list A) : truthy l = false ↔ l = [].
Proof. destruct l; simpl; split; intros; congruence. Qed.

(** The name of a classified Result is the name passed in, whatever the
    branch. *)
Lemma result_from_test_result_name tr n start took0 out0 err0 w p :
  name (_result_from_test_result tr n start took0 out0 err0 w p) = n.
Proof.
  unfold _result_from_test_result.
  repeat (case_match; [reflexivity |]). reflexivity.
Qed.

(** [_result_from_test_result] sets [flaky] to [False] in every branch. *)
Lemma result_from_test_result_flaky tr n start took0 out0 err0 w p :
  flaky (_result_from_test_result tr n start took0 out0 err0 w p) = false.
Proof.
  unfold _result_from_test_result.
  repeat (case_match; [reflexivity |]). reflexivity.
Qed.

(** C3: [_result_from_test_result] classifies a raw outcome by the fixed
    precedence: a recorded failure gives (Failure, [[Pass]], unexpected,
    code 1); else a recorded error gives the same; else a skip gives (Skip,
    [[Skip]], expected, code 0); else an expected failure gives (Failure,
    [[Failure]], expected, code 1); else an unexpected success gives (Pass,
    [[Failure]], unexpected, code 0); else (Pass, [[Pass]], expected,
    code 0). *)
Theorem result_from_test_result_precedence
    (tr : TestResult) (n : string) (start took0 : Z) (out0 err0 : string)
    (w p : Z) :
  let r := _result_from_test_result tr n start took0 out0 err0 w p in
  (failures tr ≠ [] → verdict r = (Failure, [Pass], true, 1)) ∧
  (failures tr = [] → errors tr ≠ [] →
     verdict r = (Failure, [Pass], true, 1)) ∧
  (failures tr = [] → errors tr = [] → skipped tr ≠ [] →
     verdict r = (Skip, [Skip], false, 0)) ∧
  (failures tr = [] → errors tr = [] → skipped tr = [] →
     expectedFailures tr ≠ [] →
     verdict r = (Failure, [Failure], false, 1)) ∧
  (failures tr = [] → errors tr = [] → skipped tr = [] →
     expectedFailures tr = [] → unexpectedSuccesses tr ≠ [] →
     verdict r = (Pass, [Failure], true, 0)) ∧
  (failures tr = [] → errors tr = [] → skipped tr = [] →
     expectedFailures tr = [] → unexpectedSuccesses tr = [] →
     verdict r = (Pass, [Pass], false, 0)).
Proof.
  intros r. subst r. unfold _result_from_test_result.
  destruct tr as [fs es ss xs us]; simpl.
  repeat split; intros; subst; simpl;
    repeat match goal with
           | H : ?l ≠ [] |- _ => destruct l; [congruence | clear H]
           end; reflexivity.
Qed.

(** A raw outcome with a failure, an error and a skip all recorded, and one
    with only an expected failure and an unexpected success. *)
Lemma result_from_test_result_precedence_witness :
  verdict (_result_from_test_result
             (mkTestResult [("t", "boom")] [("t", "err")] [("t", "why")] [] [])
             "t" 0 1 "" "" 1 7) = (Failure, [Pass], true, 1) ∧
  verdict (_result_from_test_result
             (mkTestResult [] [] [] [("t", "known")] ["t"])
             "t" 0 1 "" "" 1 7) = (Failure, [Failure], false, 1).
Proof.
  split.
  - refine (proj1 (result_from_test_result_precedence
             (mkTestResult [("t", "boom")] [("t", "err")] [("t", "why")] [] [])
             "t" 0 1 "" "" 1 7) _).
    simpl. discriminate.
  - refine (proj1 (proj2 (proj2 (proj2 (result_from_test_result_precedence
             (mkTestResult [] [] [] [("t", "known")] ["t"])
             "t" 0 1 "" "" 1 7)))) _ _ _ _);
      simpl; first [reflexivity | discriminate].
Defined.

(** ** Sorting *)

Lemma insert_by_name_perm x l : insert_by_name x l ≡ₚ x :: l.
Proof.
  induction l as [| y l IH]; simpl; [reflexivity |].
  case_match; [reflexivity |].
  rewrite IH. apply Permutation_swap.
Qed.

(** [_sort_inputs] keeps exactly the inputs it is given. *)
Lemma sort_inputs_perm l : _sort_inputs l ≡ₚ l.
Proof.
  induction l as [| x l IH]; simpl; [reflexivity |].
  rewrite insert_by_name_perm. by rewrite IH.
Qed.

Lemma sort_inputs_elem x l : x ∈ _sort_inputs l ↔ x ∈ l.
Proof. by rewrite sort_inputs_perm. Qed.

Lemma sort_inputs_names n l :
  n ∈ map ti_name (_sort_inputs l) ↔ n ∈ map ti_name l.
Proof. by rewrite sort_inputs_perm. Qed.

(** ** The scheduler: what every state of the loop satisfies *)

Section SchedulerFacts.

Variable jobs_limit : Z.

(** An invariant of the loop holds in every state it reaches. *)
Lemma run_list_invariant (P : RunList → Prop) s0 s :
  P s0 →
  (∀ s1 s2, P s1 → run_list_step jobs_limit s1 s2 → P s2) →
  run_list_reaches jobs_limit s0 s → P s.
Proof.
  intros H0 Hstep Hreach. revert s Hreach.
  apply (rtc_ind_r P s0); eauto.
Qed.

Lemma receive_returned r pool1 s s1 :
  receive r pool1 s = Returned s1 →
  name r ∈ rl_running s ∧
  s1 = mkRunList (rl_pending s) (rl_running s ∖ {[name r]}) pool1
         (rl_workers s) (rl_results s ++ [r])
         (mkStats (total (rl_stats s)) (stats_started (rl_stats s))
                  (stats_finished (rl_stats s) + 1)).
Proof.
  unfold receive. case_bool_decide; [| discriminate].
  intros [= <-]. done.
Qed.

(** The pending list only loses units from its front: what was sent so far
    and what is still pending make up the list [_run_list] was given, in
    its order. *)
Lemma pending_is_suffix s0 s :
  run_list_reaches jobs_limit s0 s →
  ∃ sent, rl_pending s0 = sent ++ rl_pending s.
Proof.
  apply (run_list_invariant (λ s, ∃ sent, rl_pending s0 = sent ++ rl_pending s)).
  - by exists [].
  - intros s1 s2 [sent Hsent] Hstep. destruct Hstep as [s1 ti rest Hp _ | s1 r pool1 s2 _ _ _ Hrecv].
    + exists (sent ++ [ti]). rewrite Hsent, Hp. simpl. by rewrite <- app_assoc.
    + apply receive_returned in Hrecv as [_ ->]. by exists sent.
Qed.

(** Only units of the list given to [_run_list] are ever in the pool. *)
Lemma pool_from_inputs s0 s :
  run_list_reaches jobs_limit s0 s →
  ∀ ti, ti ∈ rl_pool s ++ rl_pending s → ti ∈ rl_pool s0 ++ rl_pending s0.
Proof.
  apply (run_list_invariant
           (λ s, ∀ ti, ti ∈ rl_pool s ++ rl_pending s →
                       ti ∈ rl_pool s0 ++ rl_pending s0)).
  - done.
  - intros s1 s2 IH Hstep ti. destruct Hstep as [s1 ti0 rest Hp _ | s1 r pool1 s2 _ _ Hpool Hrecv].
    + simpl. intros Hin. apply IH. rewrite Hp.
      rewrite <- app_assoc in Hin. exact Hin.
    + apply receive_returned in Hrecv as [_ ->]. simpl.
      destruct Hpool as (before & ti1 & after & Hb & -> & _).
      intros Hin. apply IH. rewrite Hb. set_solver.
Qed.

(** Every Result collected by the loop is named after a unit of the list
    given to [_run_list]; the Results collected before are kept, in
    order, at the front. *)
Lemma results_from_inputs s0 s :
  run_list_reaches jobs_limit s0 s →
  ∃ new, rl_results s = rl_results s0 ++ new ∧
         ∀ r, r ∈ new → name r ∈ map ti_name (rl_pool s0 ++ rl_pending s0).
Proof.
  intros Hreach.
  assert (Hgen : (∃ new, rl_results s = rl_results s0 ++ new ∧
                    ∀ r, r ∈ new →
                       name r ∈ map ti_name (rl_pool s0 ++ rl_pending s0)) ∧
                 run_list_reaches jobs_limit s0 s); [| by destruct Hgen].
  revert Hreach.
  apply (run_list_invariant
           (λ s, (∃ new, rl_results s = rl_results s0 ++ new ∧
                    ∀ r, r ∈ new →
                       name r ∈ map ti_name (rl_pool s0 ++ rl_pending s0)) ∧
                 run_list_reaches jobs_limit s0 s)).
  - split; [| apply rtc_refl]. exists []. rewrite app_nil_r. split; [done |].
    intros r Hr. by apply elem_of_nil in Hr.
  - intros s1 s2 [(new & Hnew & Hnames) Hreach1] Hstep.
    split; [| by eapply rtc_r].
    destruct Hstep as [s1 ti0 rest Hp _ | s1 r pool1 s2 _ _ Hpool Hrecv].
    + exists new. done.
    + apply receive_returned in Hrecv as [_ ->]. simpl.
      exists (new ++ [r]). rewrite Hnew, app_assoc. split; [done |].
      intros r' [Hr' | Hr']%elem_of_app; [by apply Hnames |].
      apply list_elem_of_singleton in Hr' as ->.
      destruct Hpool as (before & ti1 & after & Hb & _ & ->).
      apply list_elem_of_fmap. exists ti1. split; [done |].
      apply (pool_from_inputs s0 s1 Hreach1). rewrite Hb. set_solver.
Qed.

(** The set [running_jobs] holds names of units that are in the pool. *)
Lemma running_in_pool s0 s :
  rl_running s0 ⊆ list_to_set (map ti_name (rl_pool s0)) →
  run_list_reaches jobs_limit s0 s →
  rl_running s ⊆ list_to_set (map ti_name (rl_pool s)).
Proof.
  intros H0.
  apply (run_list_invariant
           (λ s, rl_running s ⊆ list_to_set (map ti_name (rl_pool s))));
    [done |].
  intros s1 s2 IH Hstep.
  destruct Hstep as [s1 ti0 rest Hp _ | s1 r pool1 s2 _ _ Hpool Hrecv].
  - simpl. rewrite map_app, list_to_set_app_L. simpl. set_solver.
  - apply receive_returned in Hrecv as [_ ->]. simpl.
    destruct Hpool as (before & ti1 & after & Hb & -> & Hname).
    rewrite Hb in IH. rewrite map_app, list_to_set_app_L in *. simpl in IH.
    rewrite Hname. set_solver.
Qed.

(** With pairwise distinct unit names, [running_jobs] is exactly the set
    of names of the units in the pool, and the names stay distinct. *)
Lemma running_is_pool s0 s :
  NoDup (map ti_name (rl_pool s0 ++ rl_pending s0)) →
  rl_running s0 = list_to_set (map ti_name (rl_pool s0)) →
  run_list_reaches jobs_limit s0 s →
  NoDup (map ti_name (rl_pool s ++ rl_pending s)) ∧
  rl_running s = list_to_set (map ti_name (rl_pool s)).
Proof.
  intros Hnd Hrun.
  apply (run_list_invariant
           (λ s, NoDup (map ti_name (rl_pool s ++ rl_pending s)) ∧
                 rl_running s = list_to_set (map ti_name (rl_pool s))));
    [done |].
  intros s1 s2 [IHnd IHrun] Hstep.
  destruct Hstep as [s1 ti0 rest Hp _ | s1 r pool1 s2 _ _ Hpool Hrecv].
  - simpl. rewrite Hp in IHnd. rewrite <- app_assoc. split; [done |].
    rewrite map_app, list_to_set_app_L, IHrun. simpl. set_solver.
  - apply receive_returned in Hrecv as [_ ->]. simpl.
    destruct Hpool as (before & ti1 & after & Hb & -> & Hname).
    rewrite Hb in IHnd, IHrun.
    rewrite <- !app_assoc, !map_app in IHnd. simpl in IHnd.
    apply NoDup_app in IHnd as (Hnb & Hdisj & Hrest).
    apply NoDup_cons in Hrest as [Hnotin Hrest].
    split.
    + rewrite <- app_assoc, !map_app. apply NoDup_app. split; [done |].
      split; [| done]. intros x Hx Hx2. apply (Hdisj x Hx). by right.
    + rewrite IHrun, Hname, !map_app, !list_to_set_app_L. simpl.
      assert (ti_name ti1 ∉ map ti_name before).
      { intros Hin. apply (Hdisj _ Hin). by left. }
      assert (ti_name ti1 ∉ map ti_name after).
      { intros Hin. apply Hnotin. rewrite <- map_app.
        rewrite map_app. apply elem_of_app. by left. }
      set_solver.
Qed.

(** The pool and the pending list never hold more units than the list
    given to [_run_list]. *)
Lemma pool_and_pending_length s0 s :
  run_list_reaches jobs_limit s0 s →
  (length (rl_pool s) + length (rl_pending s)
     ≤ length (rl_pool s0) + length (rl_pending s0))%nat.
Proof.
  apply (run_list_invariant
           (λ s, (length (rl_pool s) + length (rl_pending s)
                    ≤ length (rl_pool s0) + length (rl_pending s0))%nat));
    [done |].
  intros s1 s2 IH Hstep.
  destruct Hstep as [s1 ti0 rest Hp _ | s1 r pool1 s2 _ _ Hpool Hrecv].
  - simpl. rewrite Hp in IH. rewrite length_app. simpl in *. lia.
  - apply receive_returned in Hrecv as [_ ->]. simpl.
    destruct Hpool as (before & ti1 & after & Hb & -> & _).
    rewrite Hb in IH. rewrite !length_app in *. simpl in IH. lia.
Qed.

(** With pairwise distinct unit names, the units in flight never exceed
    [self.args.jobs] (the limit the inner loop tests), nor the number of
    units given. *)
Lemma in_flight_le_limit test_inputs jobs results stats s0 s :
  NoDup (map ti_name test_inputs) →
  run_list_start test_inputs jobs results stats = Some s0 →
  run_list_reaches jobs_limit s0 s →
  in_flight s ≤ Z.max 0 (Z.min jobs_limit (Z.of_nat (length test_inputs))).
Proof.
  intros Hnd Hstart Hreach.
  assert (Hs0 : rl_pool s0 = [] ∧ rl_pending s0 = test_inputs ∧
                rl_running s0 = ∅).
  { unfold run_list_start in Hstart. case_match; by simplify_eq. }
  destruct Hs0 as (Hpool0 & Hpend0 & Hrun0).
  pose proof (pool_and_pending_length _ _ Hreach) as Hlen.
  rewrite Hpool0, Hpend0 in Hlen. simpl in Hlen.
  assert (Hnd0 : NoDup (map ti_name (rl_pool s0 ++ rl_pending s0))).
  { by rewrite Hpool0, Hpend0. }
  assert (Hrun : rl_running s0 = list_to_set (map ti_name (rl_pool s0))).
  { by rewrite Hpool0, Hrun0. }
  assert (Hlim : in_flight s ≤ Z.max 0 jobs_limit ∧
                 run_list_reaches jobs_limit s0 s).
  { revert Hreach.
    apply (run_list_invariant
             (λ s, in_flight s ≤ Z.max 0 jobs_limit ∧
                   run_list_reaches jobs_limit s0 s)).
    { split; [unfold in_flight; rewrite Hpool0; simpl; lia | apply rtc_refl]. }
    intros s1 s2 [IH Hreach1] Hstep. split; [| by eapply rtc_r].
    destruct (running_is_pool _ _ Hnd0 Hrun Hreach1) as [Hnd1 Hrun1].
    destruct Hstep as [s1 ti0 rest Hp Hsend | s1 r pool1 s2 _ _ Hpool Hrecv].
    - unfold in_flight, can_send in *. simpl.
      apply andb_true_iff in Hsend as [_ Hlt]. apply Z.ltb_lt in Hlt.
      rewrite Hrun1, size_list_to_set in Hlt.
      + rewrite length_map in Hlt. rewrite length_app. simpl. lia.
      + rewrite map_app in Hnd1. by apply NoDup_app in Hnd1 as [? _].
    - apply receive_returned in Hrecv as [_ ->]. unfold in_flight in *. simpl.
      destruct Hpool as (before & ti1 & after & Hb & -> & _).
      rewrite Hb in IH. rewrite !length_app in *. simpl in IH. lia. }
  destruct Hlim as [Hlim _].
  unfold in_flight in *. lia.
Qed.

End SchedulerFacts.

(** C1, at the failing input: [_run_list] called for the isolated bucket
    (jobs = 1) with [self.args.jobs = 2] and the units [a], [b].  The pool
    is made with one worker, yet the loop hands both units to it before any
    Result is received: two units are in flight, more than
    [min(jobs, len(units)) = 1]. *)
Theorem isolated_run_exceeds_its_jobs :
  ∃ s0 s,
    run_list_start [TestInput_of "a"; TestInput_of "b"] 1 [] (mkStats 2 0 0)
      = Some s0 ∧
    run_list_reaches 2 s0 s ∧
    rl_workers s0 = 1 ∧
    rl_results s = [] ∧
    in_flight s = 2 ∧
    size (rl_running s) = 2%nat ∧
    Z.min 1 (Z.of_nat (length [TestInput_of "a"; TestInput_of "b"])) = 1.
Proof.
  eexists. eexists. split; [reflexivity |].
  split.
  - eapply rtc_l.
    { apply (step_send 2 _ (TestInput_of "a") [TestInput_of "b"]);
        vm_compute; reflexivity. }
    eapply rtc_l.
    { apply (step_send 2 _ (TestInput_of "b") []); vm_compute; reflexivity. }
    apply rtc_refl.
  - repeat split; vm_compute; reflexivity.
Qed.

(** ** Skipped units *)

(** [_skip_tests] appends one such Result per skipped unit, in bucket
    order, and leaves the Results collected before untouched. *)
Lemma skip_tests_results pr dflt tests : ∀ h stats results,
  ∃ new, (_skip_tests pr dflt h stats results tests).2 = results ++ new ∧
         Forall2 (skip_result_of dflt) tests new.
Proof.
  unfold _skip_tests.
  induction tests as [| ti tests IH]; intros h stats results; simpl.
  - exists []. by rewrite app_nil_r.
  - edestruct IH as (new & Hnew & Hall).
    eexists (_ :: new). split.
    + unfold skip_one, h_time. simpl.
      rewrite Hnew, <- app_assoc. reflexivity.
    + constructor; [| exact Hall]. by repeat split.
Qed.

(** ** Classifier *)

Section ClassifierFacts.

Variable fnmatch : string → string → bool.
Variable args : Args.

Lemma classified_step ts test :
  classified fnmatch args ts →
  classified fnmatch args (default_classifier fnmatch args ts test).
Proof.
  intros [Hskip Hrun]. unfold default_classifier.
  assert (Hpar : ∀ ti, ti ∈ parallel_tests ts →
                   _matches fnmatch (ti_name ti) (args_skip args) = false)
    by (intros; apply Hrun; set_solver).
  assert (Hiso : ∀ ti, ti ∈ isolated_tests ts →
                   _matches fnmatch (ti_name ti) (args_skip args) = false)
    by (intros; apply Hrun; set_solver).
  destruct (_matches fnmatch (tc_id test) (args_skip args)) eqn:Hs;
    [| destruct (_matches fnmatch (tc_id test) (args_isolate args)) eqn:Hi];
    split; simpl; intros ti Hin;
    rewrite ?elem_of_app, ?list_elem_of_singleton in Hin;
    destruct_or?; subst; simpl; auto.
Qed.

Lemma classified_add_tests suite : ∀ ts,
  classified fnmatch args ts →
  classified fnmatch args (add_tests fnmatch args ts suite).
Proof.
  unfold add_tests. induction suite as [| test suite IH]; intros ts Hts;
    simpl; [done |].
  apply IH. by apply classified_step.
Qed.

(** Later classifications only append: what is in the skip bucket stays. *)
Lemma add_tests_keeps_skip suite : ∀ ts ti,
  ti ∈ tests_to_skip ts → ti ∈ tests_to_skip (add_tests fnmatch args ts suite).
Proof.
  unfold add_tests. induction suite as [| test suite IH]; intros ts ti Hin;
    simpl; [done |].
  apply IH. unfold default_classifier.
  repeat case_match; simpl; set_solver.
Qed.

(** Every test of the suite that matches a skip glob ends up in the skip
    bucket with the standard message. *)
Lemma add_tests_skips suite : ∀ ts test,
  test ∈ suite → _matches fnmatch (tc_id test) (args_skip args) = true →
  TestInput_msg (tc_id test) "skipped by request"
    ∈ tests_to_skip (add_tests fnmatch args ts suite).
Proof.
  induction suite as [| t suite IH]; intros ts test Hin Hs.
  - by apply elem_of_nil in Hin.
  - apply elem_of_cons in Hin as [-> | Hin].
    + unfold add_tests. simpl. apply add_tests_keeps_skip.
      unfold default_classifier. rewrite Hs. simpl. set_solver.
    + unfold add_tests. simpl. by apply IH.
Qed.

End ClassifierFacts.

(** C7: the default classifier appends the unit to exactly one bucket: the
    skip bucket, with the message "skipped by request", when its name
    matches a skip glob; else the isolated bucket when it matches an isolate
    glob; else the parallel bucket.  A unit of a discovered suite that
    matches a skip glob is in the skip bucket of the sorted test set, is
    never handed to the pool by [_run_list] on the parallel or the isolated
    bucket, and the Results [_skip_tests] builds for the skip bucket are
    Skips carrying that message. *)
Theorem default_classifier_buckets
    (fnmatch : string → string → bool) (args : Args) (ts : TestSet)
    (test : TestCase) :
  let n := tc_id test in
  let ts' := default_classifier fnmatch args ts test in
  (_matches fnmatch n (args_skip args) = true →
     ts' = mkTestSet (parallel_tests ts) (isolated_tests ts)
             (tests_to_skip ts ++ [TestInput_msg n "skipped by request"])) ∧
  (_matches fnmatch n (args_skip args) = false →
   _matches fnmatch n (args_isolate args) = true →
     ts' = mkTestSet (parallel_tests ts)
             (isolated_tests ts ++ [TestInput_of n]) (tests_to_skip ts)) ∧
  (_matches fnmatch n (args_skip args) = false →
   _matches fnmatch n (args_isolate args) = false →
     ts' = mkTestSet (parallel_tests ts ++ [TestInput_of n])
             (isolated_tests ts) (tests_to_skip ts)) ∧
  (length (parallel_tests ts') + length (isolated_tests ts')
     + length (tests_to_skip ts')
   = S (length (parallel_tests ts) + length (isolated_tests ts)
          + length (tests_to_skip ts)))%nat ∧
  (∀ suite, test ∈ suite → _matches fnmatch n (args_skip args) = true →
     let found :=
       sort_test_set (add_tests fnmatch args (mkTestSet [] [] []) suite) in
     TestInput_msg n "skipped by request" ∈ tests_to_skip found ∧
     (∀ jobs_limit jobs results stats s0 s bucket,
        bucket = parallel_tests found ∨ bucket = isolated_tests found →
        run_list_start bucket jobs results stats = Some s0 →
        run_list_reaches jobs_limit s0 s →
        n ∉ map ti_name (rl_pool s)) ∧
     (∀ pr dflt h stats results,
        ∃ new,
          (_skip_tests pr dflt h stats results (tests_to_skip found)).2
            = results ++ new ∧
          (∃ r, r ∈ new ∧ name r = n) ∧
          (∀ r, r ∈ new → actual r = Skip ∧ out r = "skipped by request"))).
Proof.
  intros n ts'. subst n ts'. unfold default_classifier.
  split; [intros ->; reflexivity |].
  split; [intros -> ->; reflexivity |].
  split; [intros -> ->; reflexivity |].
  split.
  { repeat case_match; simpl; rewrite length_app; simpl; lia. }
  intros suite Hin Hskip.
  set (found := sort_test_set
                  (add_tests fnmatch args (mkTestSet [] [] []) suite)).
  assert (Hcl : classified fnmatch args
                  (add_tests fnmatch args (mkTestSet [] [] []) suite)).
  { apply classified_add_tests. split; simpl; intros ti Hti;
      by apply elem_of_nil in Hti. }
  destruct Hcl as [Hcs Hcr].
  assert (Hfound : TestInput_msg (tc_id test) "skipped by request"
                     ∈ tests_to_skip found).
  { subst found. simpl. apply (proj2 (sort_inputs_elem _ _)).
    by apply add_tests_skips. }
  split; [exact Hfound |]. split.
  - intros jobs_limit jobs results stats s0 s bucket Hb Hstart Hreach Hn.
    apply list_elem_of_fmap in Hn as (ti & Hname & Hti).
    assert (Hti0 : ti ∈ rl_pool s0 ++ rl_pending s0).
    { apply (pool_from_inputs jobs_limit s0 s Hreach). set_solver. }
    unfold run_list_start in Hstart. case_match; [discriminate |].
    injection Hstart as <-. simpl in Hti0.
    assert (Hfalse : _matches fnmatch (ti_name ti) (args_skip args) = false).
    { apply Hcr. subst found. simpl in Hb. apply elem_of_app.
      destruct Hb as [-> | ->]; apply (proj1 (sort_inputs_elem _ _)) in Hti0;
        [left | right]; exact Hti0. }
    congruence.
  - intros pr dflt h stats results.
    destruct (skip_tests_results pr dflt (tests_to_skip found) h stats results)
      as (new & Hnew & Hall).
    exists new. split; [exact Hnew |]. split.
    + apply list_elem_of_lookup in Hfound as [i Hi].
      destruct (Forall2_lookup_l _ _ _ _ _ Hall Hi) as (r & Hr & Hres).
      exists r. split; [by eapply list_elem_of_lookup_2 |].
      by destruct Hres as (-> & _).
    + intros r Hr. apply list_elem_of_lookup in Hr as [i Hi].
      destruct (Forall2_lookup_r _ _ _ _ _ Hall Hi) as (ti & Hti & Hres).
      destruct Hres as (_ & -> & _ & -> & _). split; [done |].
      apply Hcs. subst found. simpl in Hti.
      apply list_elem_of_lookup_2 in Hti.
      by apply (proj1 (sort_inputs_elem _ _)) in Hti.
Qed.

(** Scenario B of the spec: a unit matching the skip glob [pkg.mod.*] goes to
    the skip bucket with the standard message, and nowhere else. *)
Lemma default_classifier_buckets_witness :
  default_classifier fnmatch_plain (with_skip ["pkg.mod.*"] (Args_default 4))
    (mkTestSet [TestInput_of "other.test_b"] [] [])
    (passing_test "pkg.mod.test_a")
  = mkTestSet [TestInput_of "other.test_b"] []
      [TestInput_msg "pkg.mod.test_a" "skipped by request"].
Proof.
  refine (proj1 (default_classifier_buckets fnmatch_plain
                   (with_skip ["pkg.mod.*"] (Args_default 4))
                   (mkTestSet [TestInput_of "other.test_b"] [] [])
                   (passing_test "pkg.mod.test_a")) _).
  vm_compute. reflexivity.
Defined.

(** ** The worker function *)

(** When [_run_one_test] returns a Result, it is named after the unit. *)
Lemma run_one_test_name py3 dflt loader child h ti r :
  (_run_one_test py3 dflt loader child h ti).1.1 = Returned r →
  name r = ti_name ti.
Proof.
  unfold _run_one_test, h_time, restore_output. simpl.
  destruct (loadTestsFromName loader (ti_name ti)) as [msg | suite].
  - destruct (_load_via_load_tests loader child (ti_name ti))
      as [[[| t [| t2 suite]] | exc] child1]; destruct py3; simpl;
      intros [= <-]; simpl; auto using result_from_test_result_name.
  - destruct suite as [| t [| t2 suite]]; simpl;
      intros [= <-]; simpl; auto using result_from_test_result_name.
Qed.

(** C10: given that the Result constructor's own default for [flaky] is
    [False], every Result the engine produces has [flaky = False]:
    [_result_from_test_result] passes [False] explicitly; the
    load-failure Result of [_run_one_test] and the Skip Results of
    [_skip_tests] leave the argument out; and neither the scheduler nor the
    retry loop changes a Result it collects, so a unit that fails and then
    passes on retry has two Results, both with [flaky = False]. *)
Theorem engine_results_not_flaky (dflt : ResultDefaults) :
  default_flaky dflt = false →
  (∀ tr n start took0 out0 err0 w p,
     flaky (_result_from_test_result tr n start took0 out0 err0 w p) = false) ∧
  (∀ py3 loader child h ti r,
     (_run_one_test py3 dflt loader child h ti).1.1 = Returned r →
     flaky r = false) ∧
  (∀ pr h stats results tests,
     Forall (λ r, flaky r = false) results →
     Forall (λ r, flaky r = false)
            (_skip_tests pr dflt h stats results tests).2) ∧
  (∀ r pool1 s s1,
     receive r pool1 s = Returned s1 →
     Forall (λ r, flaky r = false) (rl_results s) → flaky r = false →
     Forall (λ r, flaky r = false) (rl_results s1)) ∧
  (∀ limit0 retry_set st,
     Forall (λ r, flaky r = false) (result_set st) →
     Forall (λ r, flaky r = false) retry_set →
     Forall (λ r, flaky r = false)
            (result_set (retry_body limit0 retry_set st))).
Proof.
  intros Hdflt. split; [intros; apply result_from_test_result_flaky |].
  split.
  { intros py3 loader child h ti r.
    unfold _run_one_test, h_time, restore_output. simpl.
    destruct (loadTestsFromName loader (ti_name ti)) as [msg | suite].
    - destruct (_load_via_load_tests loader child (ti_name ti))
        as [[[| t [| t2 suite]] | exc] child1]; destruct py3; simpl;
        intros [= <-]; simpl; auto using result_from_test_result_flaky.
    - destruct suite as [| t [| t2 suite]]; simpl;
        intros [= <-]; simpl; auto using result_from_test_result_flaky. }
  split.
  { intros pr h stats results tests Hres.
    destruct (skip_tests_results pr dflt tests h stats results)
      as (new & -> & Hall).
    apply Forall_app. split; [exact Hres |].
    apply Forall_forall. intros r Hr.
    apply list_elem_of_lookup in Hr as [i Hi].
    destruct (Forall2_lookup_r _ _ _ _ _ Hall Hi) as (ti & _ & Hres').
    destruct Hres' as (_ & _ & _ & _ & _ & ->). exact Hdflt. }
  split.
  { intros r pool1 s s1 Hrecv Hres Hr.
    apply receive_returned in Hrecv as [_ ->]. simpl.
    apply Forall_app. split; [exact Hres |]. by constructor. }
  intros limit0 retry_set st Hres Hnew. simpl.
  apply Forall_app. by split.
Qed.

(** With constructor defaults whose [flaky] is [False], a unit whose direct
    load raises and whose fallback finds nothing gets, under Python 2, a
    load-failure Result; its [flaky] flag is [False]. *)
Lemma engine_results_not_flaky_witness :
  flaky (mkResult "pkg.missing" Failure 5 0 3 [Pass] true false 1 ""
           "failed to load pkg.missing: No module named pkg" 100) = false.
Proof.
  refine (proj1 (proj2 (engine_results_not_flaky plain_defaults eq_refl))
            false
            (mkLoader (λ _, inl "No module named pkg") (λ _, Returned None))
            (mkChild 3 false false false ∅) (Host_start (λ _, 5))
            (TestInput_of "pkg.missing") _ _).
  vm_compute. reflexivity.
Defined.

(** ** Exit code *)

(** C6 as stated fails: a run whose document counts no failure, but whose
    upload raises, ends with code 1. *)
Lemma exit_code_upload_counterexample :
  num_failures (mkFullResults (λ _, 0)) = 0 ∧
  run_returns (with_upload "results.example.org" "builder" "master" "unit"
                 (Args_default 4))
              true (run_tests_returns (mkFullResults (λ _, 0))) = 1.
Proof. split; reflexivity. Qed.

(** C6, amended: for a completed run that produces a full-results document,
    the exit code is 0 if and only if the document counts no failure and the
    upload of the results did not fail (no server configured, or the fetch
    went through). *)
Theorem exit_code_law (args : Args) (fetch_raises : bool)
    (full_results : FullResults) :
  run_returns args fetch_raises (run_tests_returns full_results) = 0 ↔
  num_failures full_results = 0 ∧ upload_results args fetch_raises = 0.
Proof.
  unfold run_returns, run_tests_returns, exit_code_from_full_results,
    upload_results.
  destruct (num_failures full_results =? 0) eqn:Hn; simpl.
  - apply Z.eqb_eq in Hn. rewrite Hn. tauto.
  - apply Z.eqb_neq in Hn. split; [discriminate | tauto].
Qed.

(** ** Metadata *)

(** An entry without ['='] sets the parser's exit status to 2. *)
Lemma check_metadata_malformed metadata : ∀ st,
  (∃ val, val ∈ metadata ∧ PyStr.contains "="%char val = false) →
  (check_metadata metadata st).1 = Some 2.
Proof.
  unfold check_metadata.
  induction metadata as [| m metadata IH]; intros st (val & Hin & Hval).
  - by apply elem_of_nil in Hin.
  - simpl. apply elem_of_cons in Hin as [<- | Hin].
    + rewrite Hval. simpl.
      clear IH. generalize (st.2 ++ [MalformedMetadata val]). intros msgs.
      revert msgs. induction metadata as [| m metadata IH]; intros msgs;
        simpl; [done |].
      destruct (PyStr.contains "=" m); simpl; apply IH.
    + apply IH. eauto.
Qed.

(** When every entry contains ['='], the loop leaves the status alone. *)
Lemma check_metadata_wellformed metadata : ∀ st,
  Forall (λ val, PyStr.contains "="%char val = true) metadata →
  check_metadata metadata st = st.
Proof.
  unfold check_metadata.
  induction metadata as [| m metadata IH]; intros st Hall; simpl; [done |].
  apply Forall_cons in Hall as [Hm Hall]. rewrite Hm. simpl. by apply IH.
Qed.

(** An entry with exactly one ['='] unpacks into the text before it and the
    text after it. *)
Lemma split_one_separator sep s :
  PyStr.count sep s = 1%nat →
  PyStr.split sep s = [before_first sep s; after_first sep s].
Proof.
  induction s as [| c s IH]; simpl; [discriminate |].
  destruct (Ascii.eqb c sep); simpl.
  - intros [= Hzero]. f_equal.
    clear IH. induction s as [| d s IH]; simpl in *; [done |].
    destruct (Ascii.eqb d sep); simpl in *; [discriminate |].
    by rewrite IH.
  - intros Hone. by rewrite IH.
Qed.

(** [s.split(sep)] has one piece more than [s] has separators. *)
Lemma split_length sep s :
  length (PyStr.split sep s) = S (PyStr.count sep s).
Proof.
  induction s as [| c s IH]; simpl; [done |].
  destruct (Ascii.eqb c sep); simpl; [by rewrite IH |].
  destruct (PyStr.split sep s); simpl in *; lia.
Qed.

(** The unpacking succeeds exactly on entries with one ['=']. *)
Lemma unpack_key_value_returns m :
  is_returned (unpack_key_value m) = true ↔ PyStr.count "="%char m = 1%nat.
Proof.
  unfold unpack_key_value.
  pose proof (split_length "="%char m) as Hlen.
  destruct (PyStr.split "=" m) as [| k [| v [| x rest]]]; simpl in *;
    split; intros; first [lia | congruence].
Qed.

(** C8, at the failing input: the entry [a=b=c] contains ['='], so
    [parse_args] accepts it (no exit status, nothing printed); the run
    starts, and [_trace_from_results] raises [ValueError] when it unpacks
    [m.split('=')], which has three pieces, into two names. *)
Theorem metadata_two_separators_raises :
  (parse_args 3 true (with_metadata ["a=b=c"] (Args_default 4))).1.2 = None ∧
  (parse_args 3 true (with_metadata ["a=b=c"] (Args_default 4))).2 = [] ∧
  PyStr.split "="%char "a=b=c" = ["a"; "b"; "c"] ∧
  _trace_from_results
    (parse_args 3 true (with_metadata ["a=b=c"] (Args_default 4))).1.1 0 []
  = Raised (ValueError "too many values to unpack").
Proof. repeat split; vm_compute; reflexivity. Qed.

(** ** The fallback loader *)

(** A test case found by the loop over a suite has the requested id. *)
Lemma first_with_id_id test_name tests test_case :
  first_with_id test_name tests = Returned (Some test_case) →
  tc_id test_case = test_name.
Proof.
  induction tests as [| [tc |] tests IH]; simpl; try discriminate.
  destruct (String.eqb (tc_id tc) test_name) eqn:Heq; [| exact IH].
  intros [= <-]. by apply String.eqb_eq.
Qed.

(** One prefix leaves the suite as it is or adds one test case to it. *)
Lemma load_prefix_returned loader test_name n cache new_suite cache1 suite1 :
  load_prefix loader test_name n (cache, new_suite) = (cache1, Returned suite1) →
  suite1 = new_suite ∨
  ∃ test_case, suite1 = new_suite ++ [test_case] ∧ tc_id test_case = test_name.
Proof.
  unfold load_prefix.
  destruct (match cache !! n with
            | Some _ => Returned cache
            | None => _
            end) as [cache2 | e]; [| discriminate].
  destruct (default None (cache2 !! n)) as [tests |];
    [| intros [= _ <-]; by left].
  destruct (first_with_id test_name tests) as [[tc |] | e] eqn:Hfind;
    [| intros [= _ <-]; by left | discriminate].
  intros [= _ <-]. right. exists tc. split; [done |].
  by eapply first_with_id_id.
Qed.

(** Every test case the walk collects has the requested id. *)
Lemma load_walk_ids loader test_name rcomps : ∀ st suite,
  Forall (λ tc, tc_id tc = test_name) st.2 →
  (load_walk loader test_name rcomps st).2 = Returned suite →
  Forall (λ tc, tc_id tc = test_name) suite.
Proof.
  induction rcomps as [| c rcomps IH]; intros [cache new_suite] suite Hst;
    cbn [load_walk].
  - simpl. by intros [= <-].
  - destruct (load_prefix _ _ _ _) as [cache1 [suite1 | e]] eqn:Hprefix;
      [| discriminate].
    apply IH. simpl in *.
    apply load_prefix_returned in Hprefix as [-> | (tc & -> & Htc)];
      [done |].
    apply Forall_app. split; [done |]. by constructor.
Qed.

(** The walk never stops early at a match: when it returns it has gone
    through every prefix, and the suite has only grown. *)
Lemma load_walk_grows loader test_name rcomps : ∀ st suite,
  (load_walk loader test_name rcomps st).2 = Returned suite →
  ∃ more, suite = st.2 ++ more.
Proof.
  induction rcomps as [| c rcomps IH]; intros [cache new_suite] suite;
    cbn [load_walk].
  - simpl. intros [= <-]. exists []. by rewrite app_nil_r.
  - destruct (load_prefix _ _ _ _) as [cache1 [suite1 | e]] eqn:Hprefix;
      [| discriminate].
    intros Hwalk. apply IH in Hwalk as [more ->]. simpl.
    apply load_prefix_returned in Hprefix as [-> | (tc & -> & _)].
    + by exists more.
    + exists (tc :: more). by rewrite <- app_assoc.
Qed.

(** C2, at the failing input: the name [pkg.mod.test_a] does not resolve
    directly, and both [pkg.mod] and [pkg] load a test with that id.  The
    walk visits the three prefixes, longest first; after the match under
    [pkg.mod] it goes on to [pkg] and adds the match found there too, so the
    returned suite holds two units with the requested id, and
    [_run_one_test] (under Python 2) reports the unit as failed to load. *)
Theorem load_via_load_tests_keeps_walking :
  prefixes_desc (rev (PyStr.split "."%char "pkg.mod.test_a"))
    = ["pkg.mod.test_a"; "pkg.mod"; "pkg"] ∧
  (_load_via_load_tests two_entry_points (Child_start 1) "pkg.mod.test_a").1
    = Returned [mkTestCase "pkg.mod.test_a" TestResult_new "from pkg.mod" "";
                mkTestCase "pkg.mod.test_a" TestResult_new "from pkg" ""] ∧
  (_run_one_test false plain_defaults two_entry_points (Child_start 1)
     (Host_start (λ _, 5)) (TestInput_of "pkg.mod.test_a")).1.1
    = Returned (mkResult "pkg.mod.test_a" Failure 5 0 1 [Pass] true false 1 ""
                  "failed to load pkg.mod.test_a: No module named pkg.mod.test_a"
                  100).
Proof. repeat split; vm_compute; reflexivity. Qed.

(** ** Loading the wrong number of units *)

(** When the direct load returns a suite that does not hold exactly one
    test, [e] was never bound: reading it raises, before the output capture
    is ended. *)
Lemma run_one_test_direct_wrong_count py3 dflt loader child h ti suite :
  loadTestsFromName loader (ti_name ti) = inr suite →
  length suite ≠ 1%nat →
  _run_one_test py3 dflt loader child h ti
  = (Raised (NameError "e"), child,
     capture_output (negb (passthrough child)) (h_time h).2).
Proof.
  intros Hload Hlen. unfold _run_one_test. rewrite Hload.
  destruct suite as [| t [| t2 suite]]; simpl in *; congruence.
Qed.

(** Under Python 3 the same happens after the fallback, since [e] is
    unbound again when the handler ends. *)
Lemma run_one_test_fallback_wrong_count_py3 dflt loader child h ti msg suite :
  loadTestsFromName loader (ti_name ti) = inl msg →
  (_load_via_load_tests loader child (ti_name ti)).1 = Returned suite →
  length suite ≠ 1%nat →
  (_run_one_test true dflt loader child h ti).1.1 = Raised (NameError "e") ∧
  h_capturing (_run_one_test true dflt loader child h ti).2 = true.
Proof.
  intros Hload Hsuite Hlen. unfold _run_one_test. rewrite Hload.
  destruct (_load_via_load_tests loader child (ti_name ti))
    as [outcome child1].
  simpl in Hsuite. subst outcome.
  destruct suite as [| t [| t2 suite]]; simpl in *; done.
Qed.

(** C5, at the failing inputs: the name [pkg.mod] resolves directly to the
    two tests of the module, and [pkg.empty] to none.  In both cases, for
    either Python version, [_run_one_test] raises [NameError] on [e] in
    place of returning a Failure Result, and the output capture started
    before the load is still active. *)
Theorem run_one_test_wrong_count_raises :
  ∀ py3 : bool,
    (_run_one_test py3 plain_defaults whole_module (Child_start 1)
       (Host_start (λ _, 5)) (TestInput_of "pkg.mod")).1.1
      = Raised (NameError "e") ∧
    h_capturing
      (_run_one_test py3 plain_defaults whole_module (Child_start 1)
         (Host_start (λ _, 5)) (TestInput_of "pkg.mod")).2 = true ∧
    (_run_one_test py3 plain_defaults whole_module (Child_start 1)
       (Host_start (λ _, 5)) (TestInput_of "pkg.empty")).1.1
      = Raised (NameError "e") ∧
    h_capturing
      (_run_one_test py3 plain_defaults whole_module (Child_start 1)
         (Host_start (λ _, 5)) (TestInput_of "pkg.empty")).2 = true.
Proof.
  intros py3.
  rewrite (run_one_test_direct_wrong_count py3 plain_defaults whole_module
             (Child_start 1) (Host_start (λ _, 5)) (TestInput_of "pkg.mod")
             [passing_test "pkg.mod.test_a"; passing_test "pkg.mod.test_b"]);
    [| reflexivity | simpl; lia].
  rewrite (run_one_test_direct_wrong_count py3 plain_defaults whole_module
             (Child_start 1) (Host_start (λ _, 5)) (TestInput_of "pkg.empty")
             []); [| reflexivity | simpl; lia].
  repeat split.
Qed.

(** ** The retry loop *)

(** Only names that occur in the collection can be failed names. *)
Lemma failed_test_names_subset results :
  failed_test_names results ⊆ list_to_set (map name results).
Proof.
  unfold failed_test_names.
  assert (Hgen : ∀ acc : gset string,
            fold_left
              (λ names r,
                 if bool_decide (actual r = Failure) then names ∪ {[name r]}
                 else names ∖ {[name r]}) results acc
            ⊆ acc ∪ list_to_set (map name results)).
  { induction results as [| r results IH]; intros acc; simpl.
    - set_solver.
    - etrans; [apply IH |]. case_bool_decide; set_solver. }
  etrans; [apply Hgen |]. set_solver.
Qed.

(** [_run_list] keeps the Results collected before and adds Results named
    after the units it was given. *)
Lemma run_list_produces_names jobs_limit test_inputs jobs stats results final :
  run_list_produces jobs_limit test_inputs jobs stats results final →
  ∃ new, final = results ++ new ∧
         ∀ r, r ∈ new → name r ∈ map ti_name test_inputs.
Proof.
  intros [Hnone -> | s0 s Hstart Hreach _ ->].
  - exists []. rewrite app_nil_r. split; [done |].
    intros r Hr. by apply elem_of_nil in Hr.
  - destruct (results_from_inputs jobs_limit s0 s Hreach)
      as (new & Hnew & Hnames).
    unfold run_list_start in Hstart. case_match; [discriminate |].
    injection Hstart as <-. simpl in *. by exists new.
Qed.

(** A retry pass collects only Results named after failed units. *)
Lemma retry_pass_names pr dflt jobs_limit h stats failed retry_set :
  run_one_set_produces pr dflt jobs_limit h stats (tests_to_retry failed) []
    retry_set →
  ∀ r, r ∈ retry_set → name r ∈ failed.
Proof.
  intros (after_parallel & Hpar & Hiso) r Hr.
  apply run_list_produces_names in Hpar as (new1 & -> & Hn1).
  apply run_list_produces_names in Hiso as (new2 & -> & Hn2).
  simpl in *.
  assert (Hname : name r ∈ map ti_name
                    (_sort_inputs (map TestInput_of (elements failed)))).
  { apply elem_of_app in Hr as [Hr | Hr]; [| by apply Hn2].
    apply Hn1 in Hr. by apply elem_of_nil in Hr. }
  apply (proj1 (sort_inputs_names _ _)) in Hname.
  apply list_elem_of_fmap in Hname as (ti & -> & Hti).
  apply list_elem_of_fmap in Hti as (n & -> & Hn). simpl.
  by apply elem_of_elements in Hn.
Qed.

(** The loop goes on exactly while the counter is not zero and some name is
    failed. *)
Lemma retry_guard_false st :
  retry_guard st = false ↔ failed_tests st = ∅ ∨ retry_limit st = 0.
Proof.
  unfold retry_guard. rewrite andb_false_iff, !negb_false_iff.
  rewrite Z.eqb_eq, bool_decide_eq_true. tauto.
Qed.

Lemma retry_loop_unfold limit0 passes st :
  retry_loop limit0 passes st =
    if retry_guard st then
      match passes with
      | [] => None
      | next :: rest => retry_loop limit0 rest (retry_body limit0 next st)
      end
    else Some st.
Proof. by destruct passes. Qed.

(** The failed names of a collection are the names whose latest Result in
    it is a Failure. *)
Lemma failed_test_names_latest results : ∀ n,
  n ∈ failed_test_names results ↔
  ∃ earlier r later,
    results = earlier ++ r :: later ∧ name r = n ∧ actual r = Failure ∧
    Forall (λ r', name r' ≠ n) later.
Proof.
  unfold failed_test_names.
  induction results as [| x l IH] using rev_ind; intros n.
  - simpl. split; [set_solver |].
    intros (earlier & r & later & Heq & _). by destruct earlier.
  - rewrite fold_left_app. cbn [fold_left].
    set (F := fold_left _ l ∅) in *.
    assert (Hstep : n ∈ (if bool_decide (actual x = Failure)
                         then F ∪ {[name x]} else F ∖ {[name x]})
                    ↔ (name x = n ∧ actual x = Failure) ∨
                      (name x ≠ n ∧ n ∈ F)).
    { destruct (decide (name x = n)) as [Hn | Hn];
        case_bool_decide; set_solver. }
    rewrite Hstep, IH. clear Hstep IH. split.
    + intros [[Hn Hf] | (Hn & earlier & r & later & -> & Hr & Hf & Hlater)].
      * exists l, x, []. by rewrite Forall_nil.
      * exists earlier, r, (later ++ [x]).
        rewrite <- app_assoc. split_and!; try done.
        apply Forall_app. split; [done |]. by apply Forall_singleton.
    + intros (earlier & r & later & Heq & Hr & Hf & Hlater).
      destruct later as [| y later _] using rev_ind.
      * apply app_inj_tail in Heq as [-> ->]. by left.
      * rewrite app_comm_cons, app_assoc in Heq.
        apply app_inj_tail in Heq as [-> ->].
        apply Forall_app in Hlater as [Hlater Hx].
        apply (proj1 (Forall_singleton _ _)) in Hx.
        right. split; [done |]. by exists earlier, r, later.
Qed.

(** When the loop returns, it has run the body for some of the passes, in
    order, the guard held before each of them and fails at the end. *)
Lemma retry_loop_stops limit0 passes : ∀ st final,
  retry_loop limit0 passes st = Some final →
  retry_guard final = false ∧
  ∃ used rest,
    passes = used ++ rest ∧ final = after_passes limit0 used st ∧
    ∀ k, (k < length used)%nat →
         retry_guard (after_passes limit0 (take k used) st) = true.
Proof.
  induction passes as [| retry_set passes IH]; intros st final;
    rewrite retry_loop_unfold; destruct (retry_guard st) eqn:Hguard;
    try discriminate.
  - intros [= <-]. split; [done |]. exists [], []. split_and!; try done.
    simpl. lia.
  - intros Hloop. apply IH in Hloop as (Hstop & used & rest & -> & -> & Hused).
    split; [done |]. exists (retry_set :: used), rest. split_and!; try done.
    intros [| k] Hk; simpl in *; [done |]. apply Hused. lia.
  - intros [= <-]. split; [done |].
    exists [], (retry_set :: passes). split_and!; try done. simpl. lia.
Qed.

(** With a counter that is not negative and as many passes at hand as it
    counts, the loop returns. *)
Lemma retry_loop_returns limit0 passes : ∀ st,
  0 ≤ retry_limit st →
  (Z.to_nat (retry_limit st) ≤ length passes)%nat →
  is_Some (retry_loop limit0 passes st).
Proof.
  induction passes as [| retry_set passes IH]; intros st Hpos Hlen;
    rewrite retry_loop_unfold; destruct (retry_guard st) eqn:Hguard;
    try done.
  - unfold retry_guard in Hguard. apply andb_true_iff in Hguard as [Hl _].
    apply negb_true_iff, Z.eqb_neq in Hl. simpl in Hlen. lia.
  - unfold retry_guard in Hguard. apply andb_true_iff in Hguard as [Hl _].
    apply negb_true_iff, Z.eqb_neq in Hl.
    apply IH; simpl in *; lia.
Qed.

(** C4: a retry pass runs exactly the failed names, as isolated tests.  The
    names failed after it are the names whose latest Result of the pass is
    a Failure, so they are among the names failed before it, and a unit
    that passes in the retry is failed no more.  The Results of the pass
    are appended to the collection, which keeps the earlier ones, and the
    counter goes down by one.  After the pass the loop stops, without
    running another pass, exactly when no name is failed or the counter is
    zero, and otherwise asks for the next pass; so when the loop returns,
    no name is failed or the counter is zero, and it has run just the
    passes before which a name was failed and the counter was not zero.
    With a counter that is not negative it returns within that many
    passes. *)
Theorem retry_pass_invariant (pr : PrintReads) (dflt : ResultDefaults)
    (jobs_limit : Z) (h : Host) (stats : Stats) (limit0 : Z) (st : RetryState)
    (retry_set : list Result) :
  run_one_set_produces pr dflt jobs_limit h stats
    (tests_to_retry (failed_tests st)) [] retry_set →
  let st' := retry_body limit0 retry_set st in
  (parallel_tests (tests_to_retry (failed_tests st)) = [] ∧
   tests_to_skip (tests_to_retry (failed_tests st)) = [] ∧
   map ti_name (isolated_tests (tests_to_retry (failed_tests st)))
     ≡ₚ elements (failed_tests st)) ∧
  failed_tests st' = failed_test_names retry_set ∧
  (∀ n, n ∈ failed_tests st' ↔
        ∃ earlier r later,
          retry_set = earlier ++ r :: later ∧ name r = n ∧
          actual r = Failure ∧ Forall (λ r', name r' ≠ n) later) ∧
  failed_tests st' ⊆ failed_tests st ∧
  result_set st' = result_set st ++ retry_set ∧
  retry_limit st' = retry_limit st - 1 ∧
  (∀ later,
     (failed_tests st' = ∅ ∨ retry_limit st' = 0 →
        retry_loop limit0 later st' = Some st') ∧
     (failed_tests st' ≠ ∅ → retry_limit st' ≠ 0 →
        retry_loop limit0 later st' =
          match later with
          | [] => None
          | next :: rest => retry_loop limit0 rest (retry_body limit0 next st')
          end)) ∧
  (∀ passes final,
     retry_loop limit0 passes st' = Some final →
     (failed_tests final = ∅ ∨ retry_limit final = 0) ∧
     ∃ used rest,
       passes = used ++ rest ∧ final = after_passes limit0 used st' ∧
       ∀ k, (k < length used)%nat →
            failed_tests (after_passes limit0 (take k used) st') ≠ ∅ ∧
            retry_limit (after_passes limit0 (take k used) st') ≠ 0) ∧
  (∀ passes,
     0 ≤ retry_limit st' →
     (Z.to_nat (retry_limit st') ≤ length passes)%nat →
     is_Some (retry_loop limit0 passes st')).
Proof.
  intros Hpass st'. subst st'.
  split.
  { repeat split. simpl. rewrite sort_inputs_perm.
    rewrite map_map. simpl. by rewrite map_id. }
  split; [done |].
  split; [intros n; apply failed_test_names_latest |].
  split.
  { intros n Hn. apply failed_test_names_subset in Hn.
    apply elem_of_list_to_set, list_elem_of_fmap in Hn as (r & -> & Hr).
    by eapply retry_pass_names. }
  split; [done |]. split; [done |].
  split.
  { intros later. rewrite retry_loop_unfold. split.
    - intros Hstop. apply retry_guard_false in Hstop. by rewrite Hstop.
    - intros Hfailed Hlimit.
      destruct (retry_guard (retry_body limit0 retry_set st)) eqn:Hg; [done |].
      apply retry_guard_false in Hg. tauto. }
  split.
  { intros passes final Hloop.
    apply retry_loop_stops in Hloop as (Hstop & used & rest & -> & -> & Hused).
    split; [by apply retry_guard_false |].
    exists used, rest. split_and!; try done.
    intros k Hk. specialize (Hused k Hk).
    split; intros Hno;
      assert (retry_guard
                (after_passes limit0 (take k used)
                   (retry_body limit0 retry_set st)) = false) as Hfalse
        by (apply retry_guard_false; tauto);
      congruence. }
  intros passes. apply retry_loop_returns.
Qed.

(** A retry pass over the one failed unit [pkg.t], in which it passes. *)
Lemma retry_pass_example :
  run_one_set_produces default_reads plain_defaults 1 (Host_start (λ _, 0))
    (mkStats 1 0 0)
    (tests_to_retry (failed_test_names [failing_result "pkg.t"])) []
    [passing_result "pkg.t"].
Proof.
  exists []. split.
  - apply run_list_nothing; vm_compute; reflexivity.
  - eapply run_list_loop.
    + vm_compute. reflexivity.
    + eapply rtc_l.
      { apply (step_send 1 _ (TestInput_of "pkg.t") []);
          vm_compute; reflexivity. }
      eapply rtc_l; [| apply rtc_refl].
      eapply (step_receive 1 _ (passing_result "pkg.t") []).
      * vm_compute. reflexivity.
      * vm_compute. reflexivity.
      * exists [], (TestInput_of "pkg.t"), []. repeat split.
      * vm_compute. reflexivity.
    + vm_compute. reflexivity.
    + vm_compute. reflexivity.
Qed.

(** Scenario C of the spec, first retry of two: the unit that failed
    passes; no name is failed any more, both Results are in the collection,
    and the loop stops there, with the counter at 1 and although a further
    pass is at hand. *)
Lemma retry_pass_invariant_witness :
  failed_tests
    (retry_body 2 [passing_result "pkg.t"]
       (retry_start (with_retry_limit 2 (Args_default 1)) true
          [failing_result "pkg.t"])) = ∅ ∧
  result_set
    (retry_body 2 [passing_result "pkg.t"]
       (retry_start (with_retry_limit 2 (Args_default 1)) true
          [failing_result "pkg.t"]))
  = [failing_result "pkg.t"] ++ [passing_result "pkg.t"] ∧
  retry_limit
    (retry_body 2 [passing_result "pkg.t"]
       (retry_start (with_retry_limit 2 (Args_default 1)) true
          [failing_result "pkg.t"])) = 1 ∧
  retry_loop 2 [[failing_result "pkg.t"]]
    (retry_body 2 [passing_result "pkg.t"]
       (retry_start (with_retry_limit 2 (Args_default 1)) true
          [failing_result "pkg.t"]))
  = Some (retry_body 2 [passing_result "pkg.t"]
            (retry_start (with_retry_limit 2 (Args_default 1)) true
               [failing_result "pkg.t"])).
Proof.
  destruct (retry_pass_invariant default_reads plain_defaults 1
              (Host_start (λ _, 0)) (mkStats 1 0 0) 2
              (retry_start (with_retry_limit 2 (Args_default 1)) true
                 [failing_result "pkg.t"])
              [passing_result "pkg.t"] retry_pass_example)
    as (_ & Hfailed & _ & _ & Hresults & Hlimit & Hloop & _).
  assert (Hnone : failed_test_names [passing_result "pkg.t"] = ∅)
    by (apply (bool_decide_unpack
                 (failed_test_names [passing_result "pkg.t"] = ∅));
        vm_compute; exact I).
  rewrite Hnone in Hfailed.
  split; [exact Hfailed |]. split; [exact Hresults |].
  split; [exact Hlimit |].
  exact (proj1 (Hloop [[failing_result "pkg.t"]]) (or_introl Hfailed)).
Defined.

Lemma flushes_app evs1 evs2 :
  flushes (evs1 ++ evs2) = (flushes evs1 + flushes evs2)%nat.
Proof. unfold flushes. by rewrite List.filter_app, length_app. Qed.

(** After the first attempt the counter is below the configured limit, and
    the loop finishes without flushing or touching the settings again. *)
Lemma retry_loop_later limit0 passes : ∀ st,
  0 ≤ retry_limit st < limit0 →
  (Z.to_nat (retry_limit st) ≤ length passes)%nat →
  ∃ final,
    retry_loop limit0 passes st = Some final ∧
    flushes (events final) = flushes (events st) ∧
    events st `prefix_of` events final ∧
    overwrite final = overwrite st ∧
    should_overwrite final = should_overwrite st ∧
    verbose final = verbose st.
Proof.
  induction passes as [| retry_set passes IH]; intros st Hlim Hlen;
    rewrite retry_loop_unfold; destruct (retry_guard st) eqn:Hg;
    try (exists st; by repeat split).
  - unfold retry_guard in Hg. apply andb_true_iff in Hg as [Hnz _].
    apply negb_true_iff, Z.eqb_neq in Hnz. simpl in Hlen. lia.
  - unfold retry_guard in Hg. apply andb_true_iff in Hg as [Hnz _].
    apply negb_true_iff, Z.eqb_neq in Hnz.
    destruct (IH (retry_body limit0 retry_set st)) as (final & Hrun & Hfl & Hpre & Ho & Hso & Hv).
    { simpl. lia. }
    { simpl in *. lia. }
    assert (Hfirst : (retry_limit st =? limit0) = false) by (apply Z.eqb_neq; lia).
    exists final. simpl in *. rewrite Hfirst in *. simpl in *.
    split; [done |]. split.
    { rewrite Hfl, flushes_app. unfold flushes. simpl. lia. }
    split; [| done].
    etrans; [| exact Hpre]. by apply prefix_app_r.
Qed.

(** C9: with a retry limit of at least 1 and at least one failed unit after
    the first pass, the retry loop, whatever the passes bring, runs the
    first-retry side effects exactly once: it flushes the printer once, as
    the first thing it does; output overwriting is off in the arguments and
    in the printer; and the verbosity is capped at 1. *)
Theorem first_retry_effects_once (args : Args) (should_overwrite0 : bool)
    (results : list Result) (passes : list (list Result)) :
  1 ≤ args_retry_limit args →
  failed_test_names results ≠ ∅ →
  (Z.to_nat (args_retry_limit args) ≤ length passes)%nat →
  ∃ final,
    retry_loop (args_retry_limit args) passes
               (retry_start args should_overwrite0 results) = Some final ∧
    flushes (events final) = 1%nat ∧
    head (events final) = Some EvFlush ∧
    overwrite final = false ∧
    should_overwrite final = false ∧
    verbose final = Z.min (args_verbose args) 1.
Proof.
  intros Hlimit Hfailed Hlen.
  destruct passes as [| retry_set passes]; [simpl in Hlen; lia |].
  rewrite retry_loop_unfold.
  assert (Hg : retry_guard (retry_start args should_overwrite0 results) = true).
  { unfold retry_guard, retry_start. simpl.
    apply andb_true_iff. split.
    - apply negb_true_iff, Z.eqb_neq. lia.
    - apply negb_true_iff, bool_decide_eq_false. exact Hfailed. }
  rewrite Hg.
  destruct (retry_loop_later (args_retry_limit args) passes
              (retry_body (args_retry_limit args) retry_set
                 (retry_start args should_overwrite0 results)))
    as (final & Hrun & Hfl & Hpre & Ho & Hso & Hv).
  { simpl. lia. }
  { simpl in *. lia. }
  exists final. simpl in *. rewrite Z.eqb_refl in *. simpl in *.
  split; [done |]. split; [by rewrite Hfl |].
  split; [| done].
  destruct Hpre as [more ->]. reflexivity.
Qed.

(** A run with retry limit 2 in which the one failed unit fails again on
    the first retry and passes on the second: one flush, at the start. *)
Lemma first_retry_effects_once_witness :
  ∃ final,
    retry_loop 2 [[failing_result "pkg.t"]; [passing_result "pkg.t"]]
      (retry_start (with_retry_limit 2 (Args_default 1)) true
         [failing_result "pkg.t"]) = Some final ∧
    flushes (events final) = 1%nat ∧
    head (events final) = Some EvFlush ∧
    overwrite final = false ∧
    should_overwrite final = false ∧
    verbose final = Z.min 0 1.
Proof.
  refine (first_retry_effects_once (with_retry_limit 2 (Args_default 1)) true
            [failing_result "pkg.t"]
            [[failing_result "pkg.t"]; [passing_result "pkg.t"]] _ _ _).
  - simpl. lia.
  - vm_compute. discriminate.
  - simpl. lia.
Defined.

(** ** Further properties of the engine *)

(** X1: the scheduler, for the parallel bucket: with pairwise distinct unit
    names and a non-negative [self.args.jobs], at every point of the loop of
    [_run_list] at most [min(self.args.jobs, len(units))] units are in
    flight. *)
Theorem parallel_in_flight_bound (args_jobs : Z) (test_inputs : list TestInput)
    (results : list Result) (stats : Stats) (s0 s : RunList) :
  0 ≤ args_jobs →
  NoDup (map ti_name test_inputs) →
  run_list_start test_inputs args_jobs results stats = Some s0 →
  run_list_reaches args_jobs s0 s →
  in_flight s ≤ Z.min args_jobs (Z.of_nat (length test_inputs)).
Proof.
  intros Hjobs Hnd Hstart Hreach.
  pose proof (in_flight_le_limit args_jobs test_inputs args_jobs results stats
                s0 s Hnd Hstart Hreach).
  lia.
Qed.

(** Three units with two jobs: after two sends, two units are in flight. *)
Lemma parallel_in_flight_bound_witness :
  in_flight
    (send (TestInput_of "b") [TestInput_of "c"]
       (send (TestInput_of "a") [TestInput_of "b"; TestInput_of "c"]
          (mkRunList [TestInput_of "a"; TestInput_of "b"; TestInput_of "c"]
             ∅ [] 2 [] (mkStats 3 0 0))))
  ≤ Z.min 2 (Z.of_nat 3).
Proof.
  refine (parallel_in_flight_bound 2
            [TestInput_of "a"; TestInput_of "b"; TestInput_of "c"] []
            (mkStats 3 0 0) _ _ _ _ _ _).
  - lia.
  - apply (bool_decide_unpack _). vm_compute. exact I.
  - reflexivity.
  - eapply rtc_l.
    { apply (step_send 2 _ (TestInput_of "a")
               [TestInput_of "b"; TestInput_of "c"]); vm_compute; reflexivity. }
    eapply rtc_l; [| apply rtc_refl].
    apply (step_send 2 _ (TestInput_of "b") [TestInput_of "c"]);
      vm_compute; reflexivity.
Defined.

(** X2: units are handed to the pool in the order of the list [_run_list] is
    given, each at most once: at every point the pending list is what
    remains of that list after the units already sent; the units in the
    pool are among those sent, and every Result collected is named after a
    unit of the list. *)
Theorem run_list_dispatch_order (jobs_limit : Z) (test_inputs : list TestInput)
    (jobs : Z) (results : list Result) (stats : Stats) (s0 s : RunList) :
  run_list_start test_inputs jobs results stats = Some s0 →
  run_list_reaches jobs_limit s0 s →
  (∃ sent, test_inputs = sent ++ rl_pending s ∧
           ∀ ti, ti ∈ rl_pool s → ti ∈ test_inputs) ∧
  (∃ new, rl_results s = results ++ new ∧
          ∀ r, r ∈ new → name r ∈ map ti_name test_inputs).
Proof.
  intros Hstart Hreach.
  unfold run_list_start in Hstart. case_match; [discriminate |].
  injection Hstart as <-.
  destruct (pending_is_suffix jobs_limit _ _ Hreach) as [sent Hsent].
  pose proof (pool_from_inputs jobs_limit _ _ Hreach) as Hpool.
  destruct (results_from_inputs jobs_limit _ _ Hreach) as (new & Hnew & Hnames).
  simpl in *. split.
  - exists sent. split; [done |]. intros ti Hti. apply Hpool. set_solver.
  - by exists new.
Qed.

(** After the first of two sorted units is sent, the second is pending. *)
Lemma run_list_dispatch_order_witness :
  (∃ sent,
     [TestInput_of "a"; TestInput_of "b"]
       = sent ++ rl_pending
                   (send (TestInput_of "a") [TestInput_of "b"]
                      (mkRunList [TestInput_of "a"; TestInput_of "b"] ∅ []
                                 2 [] (mkStats 2 0 0))) ∧
     ∀ ti, ti ∈ rl_pool
                  (send (TestInput_of "a") [TestInput_of "b"]
                     (mkRunList [TestInput_of "a"; TestInput_of "b"] ∅ []
                                2 [] (mkStats 2 0 0))) →
           ti ∈ [TestInput_of "a"; TestInput_of "b"]) ∧
  (∃ new,
     rl_results
       (send (TestInput_of "a") [TestInput_of "b"]
          (mkRunList [TestInput_of "a"; TestInput_of "b"] ∅ []
                     2 [] (mkStats 2 0 0))) = [] ++ new ∧
     ∀ r, r ∈ new →
          name r ∈ map ti_name [TestInput_of "a"; TestInput_of "b"]).
Proof.
  refine (run_list_dispatch_order 2 [TestInput_of "a"; TestInput_of "b"] 2 []
            (mkStats 2 0 0) _ _ _ _).
  - reflexivity.
  - eapply rtc_l; [| apply rtc_refl].
    apply (step_send 2 _ (TestInput_of "a") [TestInput_of "b"]);
      vm_compute; reflexivity.
Defined.

(** X3: every unit of the suite the fallback loader returns has the requested
    id, whatever the loader and the cache. *)
Theorem load_via_load_tests_ids (loader : Loader) (child : Child)
    (test_name : string) (suite : Suite) :
  (_load_via_load_tests loader child test_name).1 = Returned suite →
  Forall (λ tc, tc_id tc = test_name) suite.
Proof.
  unfold _load_via_load_tests.
  pose proof (load_walk_ids loader test_name
                (rev (PyStr.split "."%char test_name))
                (loaded_suites child, [])) as Hids.
  destruct (load_walk _ _ _ _) as [cache outcome]. simpl in *.
  intros ->. by apply Hids.
Qed.

(** The two units found for [pkg.mod.test_a] under [pkg.mod] and [pkg]. *)
Lemma load_via_load_tests_ids_witness :
  Forall (λ tc, tc_id tc = "pkg.mod.test_a")
         [mkTestCase "pkg.mod.test_a" TestResult_new "from pkg.mod" "";
          mkTestCase "pkg.mod.test_a" TestResult_new "from pkg" ""].
Proof.
  refine (load_via_load_tests_ids two_entry_points (Child_start 1)
            "pkg.mod.test_a" _ _).
  vm_compute. reflexivity.
Defined.

(** X4: under Python 2, a unit whose direct load raises and whose fallback
    returns a suite that does not hold exactly one test is reported as a
    Failure Result: unexpected, code 1, the message naming the cause of the
    failed direct load; the output capture is ended. *)
Theorem load_failure_result_py2 (dflt : ResultDefaults) (loader : Loader)
    (child : Child) (h : Host) (ti : TestInput) (msg : string)
    (suite : Suite) :
  loadTestsFromName loader (ti_name ti) = inl msg →
  (_load_via_load_tests loader child (ti_name ti)).1 = Returned suite →
  length suite ≠ 1%nat →
  ∃ r, (_run_one_test false dflt loader child h ti).1.1 = Returned r ∧
       name r = ti_name ti ∧ actual r = Failure ∧ unexpected r = true ∧
       code r = 1 ∧
       err r = "failed to load " +:+ ti_name ti +:+ ": " +:+ msg ∧
       h_capturing (_run_one_test false dflt loader child h ti).2 = false.
Proof.
  intros Hload Hsuite Hlen. unfold _run_one_test. rewrite Hload.
  destruct (_load_via_load_tests loader child (ti_name ti))
    as [outcome child1].
  simpl in Hsuite. subst outcome.
  destruct suite as [| t [| t2 suite]]; simpl in *; try done;
    eexists; repeat split.
Qed.

(** A unit none of whose prefixes can be imported, under Python 2: every
    import raises [ImportError], the fallback returns an empty suite. *)
Lemma load_failure_result_py2_witness :
  ∃ r, (_run_one_test false plain_defaults
          (mkLoader (λ _, inl "No module named pkg") (λ _, Returned None))
          (Child_start 3) (Host_start (λ _, 5))
          (TestInput_of "pkg.missing")).1.1 = Returned r ∧
       name r = "pkg.missing" ∧ actual r = Failure ∧ unexpected r = true ∧
       code r = 1 ∧
       err r = "failed to load " +:+ "pkg.missing" +:+ ": "
                 +:+ "No module named pkg" ∧
       h_capturing (_run_one_test false plain_defaults
          (mkLoader (λ _, inl "No module named pkg") (λ _, Returned None))
          (Child_start 3) (Host_start (λ _, 5))
          (TestInput_of "pkg.missing")).2 = false.
Proof.
  refine (load_failure_result_py2 plain_defaults
            (mkLoader (λ _, inl "No module named pkg") (λ _, Returned None))
            (Child_start 3) (Host_start (λ _, 5)) (TestInput_of "pkg.missing")
            "No module named pkg" [] _ _ _).
  - reflexivity.
  - vm_compute. reflexivity.
  - simpl. lia.
Defined.

(** X27: when the direct load of a unit raises and the fallback raises
    too, because the import of a prefix raises something other than
    [ImportError] or because the suite of a prefix holds an object that is
    not a test case before any test with the requested id (as the suite of
    an ordinary module, made of one suite per test class, does),
    [_run_one_test] raises that exception under either Python version: no
    Result is returned, the output capture is still active, and the child
    keeps what the fallback cached. *)
Theorem run_one_test_fallback_raises (py3 : bool) (dflt : ResultDefaults)
    (loader : Loader) (child : Child) (h : Host) (ti : TestInput)
    (msg : string) (exc : PyExc) :
  loadTestsFromName loader (ti_name ti) = inl msg →
  (_load_via_load_tests loader child (ti_name ti)).1 = Raised exc →
  (_run_one_test py3 dflt loader child h ti).1.1 = Raised exc ∧
  (_run_one_test py3 dflt loader child h ti).1.2
    = (_load_via_load_tests loader child (ti_name ti)).2 ∧
  h_capturing (_run_one_test py3 dflt loader child h ti).2 = true ∧
  h_reads (_run_one_test py3 dflt loader child h ti).2 = S (h_reads h).
Proof.
  intros Hload Hraise. unfold _run_one_test. rewrite Hload.
  destruct (_load_via_load_tests loader child (ti_name ti))
    as [outcome child1].
  simpl in Hraise. subst outcome. by destruct py3.
Qed.

(** A test missing from the ordinary module [pkg.mod]: the import of
    [pkg.mod.missing] raises [ImportError], and the suite of [pkg.mod]
    holds the suite of a test class, on which the assertion fails. *)
Lemma run_one_test_fallback_raises_witness :
  (_run_one_test true plain_defaults
     (mkLoader (λ n, inl ("No module named " +:+ n))
               (λ n, if String.eqb n "pkg.mod"
                     then Returned (Some [ElSuite]) else Returned None))
     (Child_start 1) (Host_start (λ _, 5))
     (TestInput_of "pkg.mod.missing")).1.1 = Raised AssertionError ∧
  h_capturing
    (_run_one_test true plain_defaults
       (mkLoader (λ n, inl ("No module named " +:+ n))
                 (λ n, if String.eqb n "pkg.mod"
                       then Returned (Some [ElSuite]) else Returned None))
       (Child_start 1) (Host_start (λ _, 5))
       (TestInput_of "pkg.mod.missing")).2 = true.
Proof.
  destruct (run_one_test_fallback_raises true plain_defaults
              (mkLoader (λ n, inl ("No module named " +:+ n))
                        (λ n, if String.eqb n "pkg.mod"
                              then Returned (Some [ElSuite])
                              else Returned None))
              (Child_start 1) (Host_start (λ _, 5))
              (TestInput_of "pkg.mod.missing")
              "No module named pkg.mod.missing" AssertionError
              eq_refl eq_refl) as (Hraised & _ & Hcapture & _).
  exact (conj Hraised Hcapture).
Defined.

(** X5: a metadata entry without ['='] makes [parse_args] set the exit status
    to 2, which [main] returns without calling [run]. *)
Theorem parse_args_rejects_malformed (py_major : Z) (isatty : bool)
    (rargs : Args) (val : string) :
  val ∈ args_metadata rargs →
  PyStr.contains "="%char val = false →
  main_before_run (parse_args py_major isatty rargs).1.2 = Some 2.
Proof.
  intros Hin Hval. unfold parse_args, main_before_run. simpl.
  pose proof (check_metadata_malformed (args_metadata rargs) (None, [])
                (ex_intro _ val (conj Hin Hval))) as Hmeta.
  destruct (check_metadata (args_metadata rargs) (None, [])) as [status msgs].
  simpl in Hmeta. subst status.
  unfold check_upload_fields.
  repeat (case_match; simpl; try reflexivity).
Qed.

(** Scenario E of the spec: the entry [nokey]. *)
Lemma parse_args_rejects_malformed_witness :
  main_before_run
    (parse_args 3 true (with_metadata ["nokey"] (Args_default 4))).1.2
  = Some 2.
Proof.
  refine (parse_args_rejects_malformed 3 true
            (with_metadata ["nokey"] (Args_default 4)) "nokey" _ _).
  - simpl. apply list_elem_of_singleton. reflexivity.
  - reflexivity.
Defined.

(** X6: a metadata entry with exactly one ['='] becomes one pair of the trace's
    [otherData]: the text before the ['='] as key, the text after it as
    value. *)
Theorem trace_other_data_one_separator (m : string)
    (other : gmap string string) :
  PyStr.count "="%char m = 1%nat →
  trace_other_data [m] other
  = Returned (<[before_first "="%char m := after_first "="%char m]> other).
Proof.
  intros Hone. simpl. unfold unpack_key_value.
  by rewrite (split_one_separator _ _ Hone).
Qed.

Lemma trace_other_data_one_separator_witness :
  trace_other_data ["os=linux"] ∅
  = Returned (<[before_first "="%char "os=linux" :=
                  after_first "="%char "os=linux"]> ∅).
Proof.
  refine (trace_other_data_one_separator "os=linux" ∅ _). reflexivity.
Defined.

(** ** Sorting by name *)

Lemma ascii_compare_lt a b :
  Ascii.compare a b = Lt ↔ (N_of_ascii a < N_of_ascii b)%N.
Proof. unfold Ascii.compare. apply N.compare_lt_iff. Qed.

Lemma ascii_compare_gt a b :
  Ascii.compare a b = Gt ↔ (N_of_ascii b < N_of_ascii a)%N.
Proof. unfold Ascii.compare. apply N.compare_gt_iff. Qed.

Lemma ascii_compare_eq a b : Ascii.compare a b = Eq ↔ a = b.
Proof.
  split; [apply Ascii.compare_eq_iff |].
  intros ->. unfold Ascii.compare. apply N.compare_refl.
Qed.

Lemma string_compare_refl s : String.compare s s = Eq.
Proof.
  induction s as [| c s IH]; simpl; [done |].
  by rewrite (proj2 (ascii_compare_eq c c) eq_refl).
Qed.

Lemma string_leb_refl s : String.leb s s = true.
Proof. unfold String.leb. by rewrite string_compare_refl. Qed.

(** The order on names is transitive. *)
Lemma string_leb_trans s1 : ∀ s2 s3,
  String.leb s1 s2 = true → String.leb s2 s3 = true →
  String.leb s1 s3 = true.
Proof.
  unfold String.leb.
  induction s1 as [| a s1 IH]; intros [| b s2] [| c s3]; simpl; try done.
  destruct (Ascii.compare a b) eqn:Hab; try done.
  - apply ascii_compare_eq in Hab as ->.
    destruct (Ascii.compare b c) eqn:Hbc; try done. apply IH.
  - destruct (Ascii.compare b c) eqn:Hbc; try done.
    + apply ascii_compare_eq in Hbc as ->. by rewrite Hab.
    + apply (proj1 (ascii_compare_lt _ _)) in Hab.
      apply (proj1 (ascii_compare_lt _ _)) in Hbc.
      assert (Hac : Ascii.compare a c = Lt) by (apply ascii_compare_lt; lia).
      by rewrite Hac.
Qed.

Lemma string_leb_false s1 s2 :
  String.leb s1 s2 = false → String.leb s2 s1 = true.
Proof.
  intros Hf. destruct (String.leb_total s1 s2) as [H | H]; congruence.
Qed.

Lemma insert_by_name_sorted x l :
  StronglySorted name_le l → StronglySorted name_le (insert_by_name x l).
Proof.
  induction 1 as [| y l Hl IH Hy]; simpl.
  - repeat constructor.
  - destruct (String.leb (ti_name x) (ti_name y)) eqn:Hxy.
    + constructor; [by constructor |]. constructor; [done |].
      eapply Forall_impl; [exact Hy |]. intros z Hz. unfold name_le in *.
      by eapply string_leb_trans.
    + constructor; [done |].
      apply string_leb_false in Hxy.
      rewrite insert_by_name_perm. by constructor.
Qed.

Lemma sort_inputs_sorted l : StronglySorted name_le (_sort_inputs l).
Proof.
  induction l as [| x l IH]; simpl; [constructor |].
  by apply insert_by_name_sorted.
Qed.

Lemma insert_by_name_with_name n x l :
  with_name n (insert_by_name x l) = with_name n (x :: l).
Proof.
  unfold with_name. induction l as [| y l IH]; simpl; [done |].
  destruct (String.leb (ti_name x) (ti_name y)) eqn:Hxy; [done |].
  simpl. rewrite IH. simpl.
  destruct (String.eqb (ti_name x) n) eqn:Hx; [| done].
  destruct (String.eqb (ti_name y) n) eqn:Hy; [| done].
  apply String.eqb_eq in Hx, Hy. rewrite Hx, Hy, string_leb_refl in Hxy.
  discriminate.
Qed.

Lemma insert_by_name_head x l :
  Forall (name_le x) l → insert_by_name x l = x :: l.
Proof.
  intros Hall. destruct l as [| y l]; simpl; [done |].
  apply Forall_cons in Hall as [Hxy _]. unfold name_le in Hxy. by rewrite Hxy.
Qed.

(** X7: [_sort_inputs] returns the inputs it is given, each as often as
    given, ordered by name; inputs with the same name keep their order
    (the sort is stable); and a list already ordered by name is returned
    unchanged, so sorting twice is sorting once. *)
Theorem sort_inputs_correct (inps : list TestInput) :
  _sort_inputs inps ≡ₚ inps ∧
  StronglySorted name_le (_sort_inputs inps) ∧
  (∀ n, with_name n (_sort_inputs inps) = with_name n inps) ∧
  (StronglySorted name_le inps → _sort_inputs inps = inps) ∧
  _sort_inputs (_sort_inputs inps) = _sort_inputs inps.
Proof.
  assert (Hfix : ∀ l, StronglySorted name_le l → _sort_inputs l = l).
  { induction 1 as [| x l Hl IH Hx]; simpl; [done |].
    rewrite IH. by apply insert_by_name_head. }
  split; [apply sort_inputs_perm |].
  split; [apply sort_inputs_sorted |].
  split.
  { intros n. induction inps as [| x l IH]; simpl; [done |].
    rewrite insert_by_name_with_name. unfold with_name in *. simpl.
    by rewrite IH. }
  split; [apply Hfix |].
  apply Hfix, sort_inputs_sorted.
Qed.

(** ** The scheduler: counting, progress and completion *)

Section SchedulerRuns.

Variable jobs_limit : Z.


(** What the loop has done so far adds up: the Results collected since the
    start, the units in the pool and the pending units are, by name, the
    units the loop started with; and the counters of [stats] follow. *)
Lemma run_list_accounting s0 s :
  run_list_reaches jobs_limit s0 s →
  ∃ new,
    rl_results s = rl_results s0 ++ new ∧
    map name new ++ map ti_name (rl_pool s ++ rl_pending s)
      ≡ₚ map ti_name (rl_pool s0 ++ rl_pending s0) ∧
    stats_started (rl_stats s) + Z.of_nat (length (rl_pending s))
      = stats_started (rl_stats s0) + Z.of_nat (length (rl_pending s0)) ∧
    stats_finished (rl_stats s)
      = stats_finished (rl_stats s0) + Z.of_nat (length new) ∧
    total (rl_stats s) = total (rl_stats s0) ∧
    rl_workers s = rl_workers s0.
Proof.
  apply (run_list_invariant jobs_limit
           (λ s, ∃ new,
              rl_results s = rl_results s0 ++ new ∧
              map name new ++ map ti_name (rl_pool s ++ rl_pending s)
                ≡ₚ map ti_name (rl_pool s0 ++ rl_pending s0) ∧
              stats_started (rl_stats s) + Z.of_nat (length (rl_pending s))
                = stats_started (rl_stats s0)
                  + Z.of_nat (length (rl_pending s0)) ∧
              stats_finished (rl_stats s)
                = stats_finished (rl_stats s0) + Z.of_nat (length new) ∧
              total (rl_stats s) = total (rl_stats s0) ∧
              rl_workers s = rl_workers s0)).
  - exists []. rewrite app_nil_r. simpl. repeat split; try done; lia.
  - intros s1 s2 (new & Hres & Hperm & Hst & Hfin & Htot & Hw) Hstep.
    destruct Hstep as [s1 ti rest Hp _ | s1 r pool1 s2 _ _ Hpool Hrecv].
    + exists new. simpl. rewrite Hp in Hperm, Hst. simpl in Hst.
      rewrite <- app_assoc. simpl. repeat split; try done; lia.
    + apply receive_returned in Hrecv as [_ ->]. simpl.
      destruct Hpool as (before & ti & after & Hb & -> & Hname).
      exists (new ++ [r]). rewrite Hres, <- app_assoc.
      repeat split; try done.
      * rewrite <- Hperm, Hb, !map_app, <- !app_assoc. simpl.
        apply Permutation_app_head. rewrite Hname.
        apply Permutation_middle.
      * rewrite length_app. simpl. lia.
Qed.


End SchedulerRuns.



(** X9: with [self.args.jobs] at least 1 and pairwise distinct unit names,
    the loop of [_run_list] never gets stuck and never raises: while its
    outer guard holds, either the next pending unit is sent, or the pool
    holds a unit and, whichever Result [pool.get()] returns,
    [running_jobs.remove] finds the name and the loop goes on. *)
Theorem run_list_progress (jobs_limit : Z) (test_inputs : list TestInput)
    (jobs : Z) (results : list Result) (stats : Stats) (s0 s : RunList) :
  1 ≤ jobs_limit →
  NoDup (map ti_name test_inputs) →
  run_list_start test_inputs jobs results stats = Some s0 →
  run_list_reaches jobs_limit s0 s →
  loop_guard s = true →
  (∃ ti rest, rl_pending s = ti :: rest ∧
              run_list_step jobs_limit s (send ti rest s)) ∨
  (can_send jobs_limit s = false ∧ rl_pool s ≠ [] ∧
   ∀ r pool1, pool_returns (rl_pool s) r pool1 →
              ∃ s1, receive r pool1 s = Returned s1 ∧
                    run_list_step jobs_limit s s1).
Proof.
  intros Hjobs Hnd Hstart Hreach Hguard.
  assert (Hs0 : rl_pool s0 = [] ∧ rl_pending s0 = test_inputs ∧
                rl_running s0 = ∅).
  { unfold run_list_start in Hstart. case_match; by simplify_eq. }
  destruct Hs0 as (Hpool0 & Hpend0 & Hrun0).
  destruct (running_is_pool jobs_limit s0 s) as [_ Hrun]; try done.
  { by rewrite Hpool0, Hpend0. }
  { by rewrite Hpool0, Hrun0. }
  destruct (can_send jobs_limit s) eqn:Hsend.
  - left. destruct (rl_pending s) as [| ti rest] eqn:Hp.
    { unfold can_send in Hsend. by rewrite Hp in Hsend. }
    exists ti, rest. split; [done |]. by apply step_send.
  - right. split; [done |].
    assert (Hne : rl_running s ≠ ∅).
    { unfold can_send in Hsend. unfold loop_guard in Hguard.
      destruct (truthy (rl_pending s)); simpl in *.
      - apply Z.ltb_ge in Hsend. intros Hempty. rewrite Hempty in Hsend.
        rewrite size_empty in Hsend. lia.
      - by apply negb_true_iff, bool_decide_eq_false in Hguard. }
    split.
    { intros Hnil. apply Hne. by rewrite Hrun, Hnil. }
    intros r pool1 Hret.
    assert (Hin : name r ∈ rl_running s).
    { destruct Hret as (before & ti & after & Hb & _ & ->).
      rewrite Hrun, Hb. apply elem_of_list_to_set, list_elem_of_fmap.
      exists ti. split; [done |]. set_solver. }
    unfold receive. rewrite (bool_decide_eq_true_2 _ Hin).
    eexists. split; [reflexivity |].
    eapply step_receive; [done | done | exact Hret |].
    unfold receive. by rewrite (bool_decide_eq_true_2 _ Hin).
Qed.

(** One unit, one job: after the unit is sent, the loop waits for its
    Result and accepts it. *)
Lemma run_list_progress_witness :
  (∃ ti rest,
     rl_pending (send (TestInput_of "a") []
                   (mkRunList [TestInput_of "a"] ∅ [] 1 [] (mkStats 1 0 0)))
       = ti :: rest ∧
     run_list_step 1
       (send (TestInput_of "a") []
          (mkRunList [TestInput_of "a"] ∅ [] 1 [] (mkStats 1 0 0)))
       (send ti rest
          (send (TestInput_of "a") []
             (mkRunList [TestInput_of "a"] ∅ [] 1 [] (mkStats 1 0 0))))) ∨
  (can_send 1 (send (TestInput_of "a") []
                 (mkRunList [TestInput_of "a"] ∅ [] 1 [] (mkStats 1 0 0)))
     = false ∧
   rl_pool (send (TestInput_of "a") []
              (mkRunList [TestInput_of "a"] ∅ [] 1 [] (mkStats 1 0 0))) ≠ [] ∧
   ∀ r pool1,
     pool_returns
       (rl_pool (send (TestInput_of "a") []
                   (mkRunList [TestInput_of "a"] ∅ [] 1 [] (mkStats 1 0 0))))
       r pool1 →
     ∃ s1,
       receive r pool1
         (send (TestInput_of "a") []
            (mkRunList [TestInput_of "a"] ∅ [] 1 [] (mkStats 1 0 0)))
         = Returned s1 ∧
       run_list_step 1
         (send (TestInput_of "a") []
            (mkRunList [TestInput_of "a"] ∅ [] 1 [] (mkStats 1 0 0))) s1).
Proof.
  refine (run_list_progress 1 [TestInput_of "a"] 1 [] (mkStats 1 0 0)
            _ _ _ _ _ _ _).
  - lia.
  - apply (bool_decide_unpack _). vm_compute. exact I.
  - reflexivity.
  - eapply rtc_l; [| apply rtc_refl].
    apply (step_send 1 _ (TestInput_of "a") []); vm_compute; reflexivity.
  - vm_compute. reflexivity.
Defined.

Lemma run_list_start_some test_inputs jobs results stats s0 :
  run_list_start test_inputs jobs results stats = Some s0 →
  rl_pending s0 = test_inputs ∧ rl_pool s0 = [] ∧ rl_running s0 = ∅ ∧
  rl_results s0 = results ∧ rl_stats s0 = stats ∧
  Z.min (Z.of_nat (length test_inputs)) jobs ≠ 0.
Proof.
  unfold run_list_start.
  destruct (Z.min (Z.of_nat (length test_inputs)) jobs =? 0) eqn:Hmin;
    [discriminate |].
  apply Z.eqb_neq in Hmin. by intros [= <-].
Qed.


(** When [_run_list] returns, each unit has one Result (see the theorem
    below). *)
Lemma run_list_runs_each_unit_once_aux (jobs_limit : Z)
    (test_inputs : list TestInput) (jobs : Z) (stats : Stats)
    (results final : list Result) :
  jobs ≠ 0 →
  NoDup (map ti_name test_inputs) →
  run_list_produces jobs_limit test_inputs jobs stats results final →
  ∃ new, final = results ++ new ∧
         map name new ≡ₚ map ti_name test_inputs.
Proof.
  intros Hjobs Hnd [Hnone -> | s0 s Hstart Hreach Hguard ->].
  - exists []. rewrite app_nil_r. split; [done |].
    unfold run_list_start in Hnone.
    destruct (Z.eqb_spec (Z.min (Z.of_nat (length test_inputs)) jobs) 0)
      as [Hz |]; [| discriminate].
    destruct test_inputs; [done | simpl in Hz; lia].
  - apply run_list_start_some in Hstart
      as (Hpend0 & Hpool0 & Hrun0 & Hres0 & _ & _).
    destruct (run_list_accounting jobs_limit s0 s Hreach)
      as (new & Hres & Hperm & _).
    destruct (running_is_pool jobs_limit s0 s) as [_ Hrun]; try done.
    { by rewrite Hpool0, Hpend0. }
    { by rewrite Hpool0, Hrun0. }
    unfold loop_guard in Hguard. apply orb_false_iff in Hguard as [Hp Hr].
    apply truthy_empty in Hp.
    apply negb_false_iff, bool_decide_eq_true in Hr.
    assert (Hpool : rl_pool s = []).
    { rewrite Hrun in Hr. destruct (rl_pool s) as [| ti pool]; [done |].
      simpl in Hr. set_solver. }
    exists new. rewrite Hres, Hres0. split; [done |].
    rewrite Hp, Hpool, Hpool0, Hpend0 in Hperm. simpl in Hperm.
    by rewrite app_nil_r in Hperm.
Qed.


(** X10: with pairwise distinct unit names and [jobs] not zero, when
    [_run_list] returns it has collected exactly one Result per unit it was
    given, appended after the Results collected before. *)
Theorem run_list_runs_each_unit_once (jobs_limit : Z)
    (test_inputs : list TestInput) (jobs : Z) (stats : Stats)
    (results final : list Result) :
  jobs ≠ 0 →
  NoDup (map ti_name test_inputs) →
  run_list_produces jobs_limit test_inputs jobs stats results final →
  ∃ new, final = results ++ new ∧
         map name new ≡ₚ map ti_name test_inputs.
Proof. apply run_list_runs_each_unit_once_aux. Qed.

(** The retry pass over the failed unit [pkg.t] collects one Result, for
    that unit. *)
Lemma run_list_runs_each_unit_once_witness :
  ∃ new, [passing_result "pkg.t"] = [] ++ new ∧
         map name new ≡ₚ map ti_name [TestInput_of "pkg.t"].
Proof.
  refine (run_list_runs_each_unit_once 1 [TestInput_of "pkg.t"] 1
            (mkStats 1 0 0) [] [passing_result "pkg.t"] _ _ _).
  - lia.
  - apply (bool_decide_unpack _). vm_compute. exact I.
  - eapply run_list_loop.
    + reflexivity.
    + eapply rtc_l.
      { apply (step_send 1 _ (TestInput_of "pkg.t") []);
          vm_compute; reflexivity. }
      eapply rtc_l; [| apply rtc_refl].
      eapply (step_receive 1 _ (passing_result "pkg.t") []).
      * vm_compute. reflexivity.
      * vm_compute. reflexivity.
      * exists [], (TestInput_of "pkg.t"), []. repeat split.
      * vm_compute. reflexivity.
    + vm_compute. reflexivity.
    + vm_compute. reflexivity.
Defined.

(** X11: the counters of [stats] during [_run_list]: [started] counts the
    units sent, [finished] the Results received, their difference is the
    number of units in flight, and [total] is not touched. *)
Theorem run_list_stats (jobs_limit : Z) (test_inputs : list TestInput)
    (jobs : Z) (results : list Result) (stats : Stats) (s0 s : RunList) :
  run_list_start test_inputs jobs results stats = Some s0 →
  run_list_reaches jobs_limit s0 s →
  ∃ new,
    rl_results s = results ++ new ∧
    stats_started (rl_stats s)
      = stats_started stats + Z.of_nat (length test_inputs)
        - Z.of_nat (length (rl_pending s)) ∧
    stats_finished (rl_stats s) = stats_finished stats + Z.of_nat (length new) ∧
    stats_started (rl_stats s) - stats_finished (rl_stats s)
      = stats_started stats - stats_finished stats + in_flight s ∧
    total (rl_stats s) = total stats.
Proof.
  intros Hstart Hreach.
  apply run_list_start_some in Hstart
    as (Hpend0 & Hpool0 & _ & Hres0 & Hstats0 & _).
  destruct (run_list_accounting jobs_limit s0 s Hreach)
    as (new & Hres & Hperm & Hst & Hfin & Htot & _).
  apply Permutation_length in Hperm.
  rewrite Hpool0, Hpend0, !length_app, !length_map, length_app in Hperm.
  simpl in Hperm. rewrite Hpend0, Hstats0 in *. rewrite Hres0 in Hres.
  exists new. unfold in_flight. repeat split; try done; lia.
Qed.

(** Two units, two jobs, after the first send: one started, none
    finished, one in flight. *)
Lemma run_list_stats_witness :
  ∃ new,
    rl_results (send (TestInput_of "a") [TestInput_of "b"]
                  (mkRunList [TestInput_of "a"; TestInput_of "b"] ∅ [] 2 []
                             (mkStats 2 0 0))) = [] ++ new ∧
    stats_started
      (rl_stats (send (TestInput_of "a") [TestInput_of "b"]
                   (mkRunList [TestInput_of "a"; TestInput_of "b"] ∅ [] 2 []
                              (mkStats 2 0 0))))
      = stats_started (mkStats 2 0 0)
        + Z.of_nat (length [TestInput_of "a"; TestInput_of "b"])
        - Z.of_nat
            (length
               (rl_pending
                  (send (TestInput_of "a") [TestInput_of "b"]
                     (mkRunList [TestInput_of "a"; TestInput_of "b"] ∅ [] 2
                                [] (mkStats 2 0 0))))) ∧
    stats_finished
      (rl_stats (send (TestInput_of "a") [TestInput_of "b"]
                   (mkRunList [TestInput_of "a"; TestInput_of "b"] ∅ [] 2 []
                              (mkStats 2 0 0))))
      = stats_finished (mkStats 2 0 0) + Z.of_nat (length new) ∧
    stats_started
      (rl_stats (send (TestInput_of "a") [TestInput_of "b"]
                   (mkRunList [TestInput_of "a"; TestInput_of "b"] ∅ [] 2 []
                              (mkStats 2 0 0))))
    - stats_finished
        (rl_stats (send (TestInput_of "a") [TestInput_of "b"]
                     (mkRunList [TestInput_of "a"; TestInput_of "b"] ∅ [] 2 []
                                (mkStats 2 0 0))))
      = stats_started (mkStats 2 0 0) - stats_finished (mkStats 2 0 0)
        + in_flight
            (send (TestInput_of "a") [TestInput_of "b"]
               (mkRunList [TestInput_of "a"; TestInput_of "b"] ∅ [] 2 []
                          (mkStats 2 0 0))) ∧
    total
      (rl_stats (send (TestInput_of "a") [TestInput_of "b"]
                   (mkRunList [TestInput_of "a"; TestInput_of "b"] ∅ [] 2 []
                              (mkStats 2 0 0))))
      = total (mkStats 2 0 0).
Proof.
  refine (run_list_stats 2 [TestInput_of "a"; TestInput_of "b"] 2 []
            (mkStats 2 0 0) _ _ _ _).
  - reflexivity.
  - eapply rtc_l; [| apply rtc_refl].
    apply (step_send 2 _ (TestInput_of "a") [TestInput_of "b"]);
      vm_compute; reflexivity.
Defined.



(** ** Skipped units and whole passes *)

Lemma h_read_times_eq n h :
  h_read_times n h
  = mkHost (h_pid h) (h_clock h) (h_reads h + n) (h_capturing h)
           (h_diverted h) (h_out h) (h_err h).
Proof.
  unfold h_read_times. induction n as [| n IH].
  - cbn. rewrite Nat.add_0_r. by destruct h.
  - rewrite Nat.iter_succ, IH. unfold h_time. simpl.
    by rewrite Nat.add_succ_r.
Qed.

Lemma skip_one_eq pr dflt ti h stats results :
  skip_one pr dflt ti (h, stats, results)
  = (mkHost (h_pid h) (h_clock h)
            (h_reads h + (3 + format_started pr + format_finished pr))
            (h_capturing h) (h_diverted h) (h_out h) (h_err h),
     mkStats (total stats) (stats_started stats + 1) (stats_finished stats + 1),
     results ++ [mkResult (ti_name ti) Skip (h_clock h (h_reads h))
                   (h_clock h (h_reads h + 1 + format_started pr)
                    - h_clock h (h_reads h)) 0
                   [Skip] (default_unexpected dflt) (default_flaky dflt)
                   (default_code dflt) (ti_msg ti) (default_err dflt)
                   (default_pid dflt)]).
Proof.
  unfold skip_one, _print_test_started, _print_test_finished, h_time.
  rewrite !h_read_times_eq.
  cbn [h_pid h_clock h_reads h_capturing h_diverted h_out h_err fst snd].
  replace (S (S (S (h_reads h) + format_started pr)) + format_finished pr)%nat
    with (h_reads h + (3 + format_started pr + format_finished pr))%nat by lia.
  replace (S (h_reads h) + format_started pr)%nat
    with (h_reads h + 1 + format_started pr)%nat by lia.
  reflexivity.
Qed.

(** X13: [_skip_tests] builds one Skip Result per skipped unit, in bucket
    order and after the Results collected before; the unit's message is the
    Result's output.  Each unit takes [3 + format_started + format_finished]
    readings of the clock: one before and one after [_print_test_started],
    one by [stats.add_time()], and those of the two [stats.format()] calls
    (three readings per unit under the default status format).  The [i]-th
    Result starts at the first reading of its unit and took the difference
    to the reading after [_print_test_started]; [started] and [finished]
    both go up by the number of skipped units and [total] is not touched. *)
Theorem skip_tests_effects (pr : PrintReads) (dflt : ResultDefaults)
    (tests : list TestInput) :
  ∀ (h : Host) (stats : Stats) (results : list Result),
  ∃ new,
    (_skip_tests pr dflt h stats results tests).2 = results ++ new ∧
    Forall2 (skip_result_of dflt) tests new ∧
    (∀ i r, new !! i = Some r →
       started r
       = h_clock h (h_reads h
                    + (3 + format_started pr + format_finished pr) * i)%nat ∧
       took r
       = h_clock h (h_reads h
                    + (3 + format_started pr + format_finished pr) * i
                    + 1 + format_started pr)%nat
         - h_clock h (h_reads h
                      + (3 + format_started pr + format_finished pr) * i)%nat) ∧
    h_reads (_skip_tests pr dflt h stats results tests).1.1
      = (h_reads h
         + (3 + format_started pr + format_finished pr) * length tests)%nat ∧
    stats_started (_skip_tests pr dflt h stats results tests).1.2
      = stats_started stats + Z.of_nat (length tests) ∧
    stats_finished (_skip_tests pr dflt h stats results tests).1.2
      = stats_finished stats + Z.of_nat (length tests) ∧
    total (_skip_tests pr dflt h stats results tests).1.2 = total stats.
Proof.
  unfold _skip_tests.
  set (stride := (3 + format_started pr + format_finished pr)%nat).
  induction tests as [| ti tests IH]; intros h stats results.
  - exists []. simpl. rewrite app_nil_r. split_and!; try done; lia.
  - cbn [fold_left]. rewrite skip_one_eq. fold stride.
    match goal with
    | |- context [fold_left _ tests (?h2, ?stats2, ?results2)] =>
        destruct (IH h2 stats2 results2)
          as (new & Hnew & Hall & Htimes & Hreads & Hst & Hfin & Htot)
    end.
    eexists (_ :: new). rewrite Hnew, Hreads, Hst, Hfin, Htot.
    cbn [h_pid h_clock h_reads total stats_started stats_finished length].
    rewrite <- app_assoc. split; [reflexivity |].
    split; [constructor; [by repeat split | exact Hall] |].
    split.
    { intros [| i] r Hi; simpl in Hi.
      - injection Hi as <-. cbn [started took].
        rewrite Nat.mul_0_r, Nat.add_0_r. done.
      - apply Htimes in Hi. cbn [h_clock h_reads] in Hi.
        replace (h_reads h + stride * S i)%nat
          with (h_reads h + stride + stride * i)%nat by lia.
        exact Hi. }
    split_and!; lia.
Qed.

(** X14: a whole pass.  With [self.args.jobs] not zero and unit names
    pairwise distinct within the parallel and within the isolated bucket,
    what [_run_one_set] collects is, after the Results collected before:
    first the Skip Results of the skipped units in bucket order, then one
    Result for each parallel unit, then one Result for each isolated
    unit. *)
Theorem run_one_set_results (pr : PrintReads) (dflt : ResultDefaults)
    (jobs_limit : Z) (h : Host) (stats : Stats) (test_set : TestSet)
    (results final : list Result) :
  jobs_limit ≠ 0 →
  NoDup (map ti_name (parallel_tests test_set)) →
  NoDup (map ti_name (isolated_tests test_set)) →
  run_one_set_produces pr dflt jobs_limit h stats test_set results final →
  ∃ skips par iso,
    final = results ++ skips ++ par ++ iso ∧
    Forall2 (skip_result_of dflt) (tests_to_skip test_set) skips ∧
    map name par ≡ₚ map ti_name (parallel_tests test_set) ∧
    map name iso ≡ₚ map ti_name (isolated_tests test_set).
Proof.
  intros Hjobs Hndp Hndi (after_parallel & Hpar & Hiso).
  destruct (skip_tests_results pr dflt (tests_to_skip test_set) h stats
              results)
    as (skips & Hskips & Hall).
  rewrite Hskips in Hpar.
  apply run_list_runs_each_unit_once_aux in Hpar as (par & -> & Hp);
    [| done | done].
  apply run_list_runs_each_unit_once_aux in Hiso as (iso & -> & Hi);
    [| done | done].
  exists skips, par, iso. by rewrite <- !app_assoc.
Qed.

(** A retry pass over the one failed unit [pkg.t]: no skips, no parallel
    units, one isolated Result. *)
Lemma run_one_set_results_witness :
  ∃ skips par iso,
    [passing_result "pkg.t"] = [] ++ skips ++ par ++ iso ∧
    Forall2 (skip_result_of plain_defaults)
      (tests_to_skip
         (tests_to_retry (failed_test_names [failing_result "pkg.t"])))
      skips ∧
    map name par
      ≡ₚ map ti_name
           (parallel_tests
              (tests_to_retry (failed_test_names [failing_result "pkg.t"]))) ∧
    map name iso
      ≡ₚ map ti_name
           (isolated_tests
              (tests_to_retry (failed_test_names [failing_result "pkg.t"]))).
Proof.
  refine (run_one_set_results default_reads plain_defaults 1
            (Host_start (λ _, 0))
            (mkStats 1 0 0)
            (tests_to_retry (failed_test_names [failing_result "pkg.t"]))
            [] [passing_result "pkg.t"] _ _ _ retry_pass_example).
  - lia.
  - apply (bool_decide_unpack _). vm_compute. exact I.
  - apply (bool_decide_unpack _). vm_compute. exact I.
Defined.

(** ** The retry loop as a whole *)

(** X15: with a retry limit that is not negative, the retry loop ends
    after at most that many passes, whatever the passes bring: it stops
    with no failed name left or with the counter at zero, the counter never
    goes below zero, the Results collected before the loop and by every
    pass stay in the collection in the order they came, and a limit of zero
    means no retry at all. *)
Theorem retry_loop_terminates (limit0 : Z) (passes : list (list Result))
    (st : RetryState) :
  0 ≤ retry_limit st →
  (Z.to_nat (retry_limit st) ≤ length passes)%nat →
  ∃ final used,
    retry_loop limit0 passes st = Some final ∧
    used `prefix_of` passes ∧
    Z.of_nat (length used) = retry_limit st - retry_limit final ∧
    0 ≤ retry_limit final ∧
    result_set final = result_set st ++ concat used ∧
    (failed_tests final = ∅ ∨ retry_limit final = 0) ∧
    (retry_limit st = 0 → final = st).
Proof.
  revert st. induction passes as [| retry_set passes IH]; intros st Hlim Hlen;
    rewrite retry_loop_unfold; destruct (retry_guard st) eqn:Hg.
  - unfold retry_guard in Hg. apply andb_true_iff in Hg as [Hnz _].
    apply negb_true_iff, Z.eqb_neq in Hnz. simpl in Hlen. lia.
  - exists st, []. apply retry_guard_false in Hg. simpl.
    rewrite app_nil_r. repeat split; try done; try lia; apply prefix_nil.
  - pose proof Hg as Hg'.
    unfold retry_guard in Hg. apply andb_true_iff in Hg as [Hnz _].
    apply negb_true_iff, Z.eqb_neq in Hnz.
    destruct (IH (retry_body limit0 retry_set st))
      as (final & used & Hrun & Hpre & Hused & Hfin & Hres & Hstop & _).
    { simpl. lia. }
    { simpl in *. lia. }
    exists final, (retry_set :: used). simpl in *.
    split; [done |]. split; [by apply prefix_cons |].
    split; [lia |]. split; [done |].
    split; [by rewrite Hres, <- app_assoc |].
    split; [done |]. intros Hzero. lia.
  - exists st, []. apply retry_guard_false in Hg. simpl.
    rewrite app_nil_r. repeat split; try done; try lia; apply prefix_nil.
Qed.

(** Scenario C of the spec: limit 2, the unit fails again on the first
    retry and passes on the second. *)
Lemma retry_loop_terminates_witness :
  ∃ final used,
    retry_loop 2 [[failing_result "pkg.t"]; [passing_result "pkg.t"]]
      (retry_start (with_retry_limit 2 (Args_default 1)) true
         [failing_result "pkg.t"]) = Some final ∧
    used `prefix_of` [[failing_result "pkg.t"]; [passing_result "pkg.t"]] ∧
    Z.of_nat (length used)
      = retry_limit (retry_start (with_retry_limit 2 (Args_default 1)) true
                       [failing_result "pkg.t"])
        - retry_limit final ∧
    0 ≤ retry_limit final ∧
    result_set final
      = result_set (retry_start (with_retry_limit 2 (Args_default 1)) true
                      [failing_result "pkg.t"]) ++ concat used ∧
    (failed_tests final = ∅ ∨ retry_limit final = 0) ∧
    (retry_limit (retry_start (with_retry_limit 2 (Args_default 1)) true
                    [failing_result "pkg.t"]) = 0 →
     final = retry_start (with_retry_limit 2 (Args_default 1)) true
               [failing_result "pkg.t"]).
Proof.
  refine (retry_loop_terminates 2
            [[failing_result "pkg.t"]; [passing_result "pkg.t"]]
            (retry_start (with_retry_limit 2 (Args_default 1)) true
               [failing_result "pkg.t"]) _ _).
  - simpl. lia.
  - simpl. lia.
Defined.

(** X16: with a negative retry limit the counter never stops the loop: as
    long as every pass leaves some name failed, the loop asks for another
    pass, however many have been run. *)
Theorem retry_loop_negative_limit (limit0 : Z) (passes : list (list Result))
    (st : RetryState) :
  retry_limit st < 0 →
  failed_tests st ≠ ∅ →
  Forall (λ retry_set, failed_test_names retry_set ≠ ∅) passes →
  retry_loop limit0 passes st = None.
Proof.
  revert st. induction passes as [| retry_set passes IH];
    intros st Hneg Hfailed Hall; rewrite retry_loop_unfold.
  - destruct (retry_guard st) eqn:Hg; [done |].
    apply retry_guard_false in Hg. destruct Hg; [done | lia].
  - destruct (retry_guard st) eqn:Hg.
    + apply Forall_cons in Hall as [Hhead Hall].
      apply IH; simpl; [lia | done | done].
    + apply retry_guard_false in Hg. destruct Hg; [done | lia].
Qed.

(** [--retry-limit -1] and a unit that fails in each of three passes. *)
Lemma retry_loop_negative_limit_witness :
  retry_loop (-1)
    [[failing_result "pkg.t"]; [failing_result "pkg.t"];
     [failing_result "pkg.t"]]
    (retry_start (with_retry_limit (-1) (Args_default 1)) true
       [failing_result "pkg.t"]) = None.
Proof.
  refine (retry_loop_negative_limit (-1) _
            (retry_start (with_retry_limit (-1) (Args_default 1)) true
               [failing_result "pkg.t"]) _ _ _).
  - simpl. lia.
  - vm_compute. discriminate.
  - repeat constructor; vm_compute; discriminate.
Defined.

(** ** The fallback loader: what it returns and what it caches *)

Lemma load_prefix_eq loader test_name n cache acc :
  load_prefix loader test_name n (cache, acc)
  = (match cache !! n with
     | None =>
         match load_module loader n with
         | Returned suite => <[n := suite]> cache
         | Raised _ => cache
         end
     | Some _ => cache
     end,
     match match_at test_name (suite_for loader cache n) with
     | Returned part => Returned (acc ++ part)
     | Raised e => Raised e
     end).
Proof.
  unfold load_prefix, suite_for, match_at.
  destruct (cache !! n) as [suite |] eqn:Hn; simpl.
  - rewrite Hn. simpl. destruct suite as [tests |];
      [destruct (first_with_id test_name tests) as [[tc |] | e] |];
      by rewrite ?app_nil_r.
  - destruct (load_module loader n) as [suite | e]; [| done].
    rewrite lookup_insert_eq. simpl. destruct suite as [tests |];
      [destruct (first_with_id test_name tests) as [[tc |] | e] |];
      by rewrite ?app_nil_r.
Qed.

(** The walk on a cache [cache]: what it returns or raises, and the cache
    it leaves. *)
Lemma load_walk_spec loader test_name rcomps : ∀ cache acc,
  (load_walk loader test_name rcomps (cache, acc)).2
    = match collect (map (λ p, match_at test_name (suite_for loader cache p))
                         (prefixes_desc rcomps)) with
      | Returned more => Returned (acc ++ more)
      | Raised e => Raised e
      end ∧
  (∀ k, k ∉ prefixes_desc rcomps →
        (load_walk loader test_name rcomps (cache, acc)).1 !! k = cache !! k) ∧
  (∀ k suite, cache !! k = Some suite →
        (load_walk loader test_name rcomps (cache, acc)).1 !! k = Some suite) ∧
  (is_returned (load_walk loader test_name rcomps (cache, acc)).2 = true →
   ∀ p, p ∈ prefixes_desc rcomps →
        ∃ suite, suite_for loader cache p = Returned suite ∧
                 (load_walk loader test_name rcomps (cache, acc)).1 !! p
                 = Some suite).
Proof.
  induction rcomps as [| c rcomps IH]; intros cache acc.
  - simpl. rewrite app_nil_r. split_and!; try done.
    intros _ p Hp. by apply elem_of_nil in Hp.
  - cbn [load_walk prefixes_desc map collect]. rewrite load_prefix_eq.
    set (n := PyStr.join "." (rev (c :: rcomps))).
    set (cache1 := match cache !! n with
                   | None =>
                       match load_module loader n with
                       | Returned suite => <[n := suite]> cache
                       | Raised _ => cache
                       end
                   | Some _ => cache
                   end).
    assert (Hother : ∀ k, k ≠ n → cache1 !! k = cache !! k).
    { intros k Hne. unfold cache1.
      destruct (cache !! n); [done |].
      destruct (load_module loader n); [| done]. by rewrite lookup_insert_ne. }
    assert (Hkeep : ∀ k suite, cache !! k = Some suite →
                               cache1 !! k = Some suite).
    { intros k suite Hk. destruct (decide (k = n)) as [-> | Hne].
      - unfold cache1. by rewrite Hk.
      - by rewrite Hother. }
    destruct (match_at test_name (suite_for loader cache n))
      as [part | e] eqn:Hpart.
    + assert (Hsuite : ∃ suite, suite_for loader cache n = Returned suite)
        by (destruct (suite_for loader cache n); [by eexists | done]).
      destruct Hsuite as [suite_n Hsuite_n].
      assert (Hn1 : cache1 !! n = Some suite_n).
      { unfold suite_for in Hsuite_n. unfold cache1.
        destruct (cache !! n) as [s |] eqn:Hn; [congruence |].
        rewrite Hsuite_n. by rewrite lookup_insert_eq. }
      assert (Hsame : ∀ k, suite_for loader cache1 k = suite_for loader cache k).
      { intros k. destruct (decide (k = n)) as [-> | Hne].
        - rewrite Hsuite_n. unfold suite_for. by rewrite Hn1.
        - unfold suite_for. by rewrite Hother. }
      destruct (IH cache1 (acc ++ part)) as (Hout & Hout_keys & Hmono & Hin).
      split_and!.
      * etrans; [exact Hout |].
        rewrite (map_ext _ (λ p, match_at test_name (suite_for loader cache p)))
          by (intros p; by rewrite Hsame).
        destruct (collect
                    (map (λ p, match_at test_name (suite_for loader cache p))
                         (prefixes_desc rcomps))) as [more | e]; [| done].
        by rewrite app_assoc.
      * intros k Hk. apply not_elem_of_cons in Hk as [Hne Hk].
        rewrite Hout_keys by done. by apply Hother.
      * intros k suite Hk. by apply Hmono, Hkeep.
      * intros Hret p Hp. apply elem_of_cons in Hp as [-> | Hp].
        -- exists suite_n. split; [done |]. by apply Hmono.
        -- destruct (Hin Hret p Hp) as (suite & Hs & Hlook).
           exists suite. by rewrite <- Hsame.
    + simpl. split_and!; try done.
      * intros k Hk. apply not_elem_of_cons in Hk as [Hne Hk].
        by apply Hother.
Qed.

Lemma prefixes_desc_length rcomps :
  length (prefixes_desc rcomps) = length rcomps.
Proof. induction rcomps; simpl; [done | by f_equal]. Qed.

(** Collecting returns exactly when every part returns, and then gives
    the parts one after the other. *)
Lemma collect_map_returned {A} (f : A → Completion Suite) (ps : list A) :
  ∀ suite,
    collect (map f ps) = Returned suite ↔
    ∃ parts, Forall2 (λ p part, f p = Returned part) ps parts ∧
             suite = concat parts.
Proof.
  induction ps as [| p ps IH]; intros suite; simpl.
  - split.
    + intros [= <-]. exists []. by split.
    + intros (parts & Hall & ->). by apply Forall2_nil_inv_l in Hall as ->.
  - destruct (f p) as [part | e] eqn:Hp.
    + destruct (collect (map f ps)) as [more | e] eqn:Hrest.
      * split.
        -- intros [= <-].
           destruct (proj1 (IH more) eq_refl) as (parts & Hall & ->).
           exists (part :: parts). split; [by constructor | done].
        -- intros (parts & Hall & ->).
           apply Forall2_cons_inv_l in Hall as (part' & parts' & Hpart & Hall & ->).
           simpl in Hpart. rewrite Hp in Hpart. injection Hpart as <-.
           assert (Hmore : Returned more = Returned (concat parts'))
             by (apply IH; by exists parts').
           by injection Hmore as ->.
      * split; [discriminate |].
        intros (parts & Hall & ->).
        apply Forall2_cons_inv_l in Hall as (part' & parts' & _ & Hall & ->).
        assert (Hmore : Raised e = Returned (concat parts'))
          by (apply IH; by exists parts').
        discriminate.
    + split; [discriminate |].
      intros (parts & Hall & ->).
      apply Forall2_cons_inv_l in Hall as (part' & parts' & Hpart & _).
      simpl in Hpart. rewrite Hp in Hpart. discriminate.
Qed.

(** X17: what [_load_via_load_tests] returns, without its loop: going
    through the prefixes of the dotted name from the longest to the
    shortest (as many as the name has components), each prefix whose suite
    holds a test with the requested id adds the first such test; the suite
    of a prefix is the cached one when the prefix was loaded before, else
    the one importing the prefix gives, and imports that raise
    [ImportError] add nothing.  No prefix is skipped once a match is found.
    The call raises at the first prefix whose import raises another
    exception or whose suite holds an object that is not a test case before
    any test with the requested id; it returns exactly when there is no
    such prefix, and then with what all the prefixes add, in order. *)
Theorem load_via_load_tests_returns (loader : Loader) (child : Child)
    (test_name : string) :
  (_load_via_load_tests loader child test_name).1
    = collect (map (λ p, match_at test_name
                           (suite_for loader (loaded_suites child) p))
                   (prefixes_desc (rev (PyStr.split "."%char test_name)))) ∧
  (∀ suite,
     (_load_via_load_tests loader child test_name).1 = Returned suite ↔
     ∃ parts,
       Forall2 (λ p part,
                  match_at test_name
                    (suite_for loader (loaded_suites child) p)
                  = Returned part)
               (prefixes_desc (rev (PyStr.split "."%char test_name))) parts ∧
       suite = concat parts) ∧
  length (prefixes_desc (rev (PyStr.split "."%char test_name)))
    = S (PyStr.count "."%char test_name).
Proof.
  assert (Hclosed :
    (_load_via_load_tests loader child test_name).1
    = collect (map (λ p, match_at test_name
                           (suite_for loader (loaded_suites child) p))
                   (prefixes_desc (rev (PyStr.split "."%char test_name))))).
  { unfold _load_via_load_tests.
    destruct (load_walk_spec loader test_name
                (rev (PyStr.split "."%char test_name)) (loaded_suites child) [])
      as (Hsuite & _).
    destruct (load_walk _ _ _ _) as [cache new_suite]. simpl in *.
    rewrite Hsuite. by destruct (collect _). }
  split; [exact Hclosed |]. split.
  - intros suite. rewrite Hclosed. apply collect_map_returned.
  - by rewrite prefixes_desc_length, length_rev, split_length.
Qed.

(** X18: the cache of the fallback loader.  A fallback load touches no key
    of [loaded_suites] other than the prefixes of the name and none of the
    other fields of the child.  After a fallback load that returned, every
    prefix of the name is a key of [loaded_suites], holding the suite used
    for it, and a second fallback load of the same name, with whatever the
    import machinery would now give, imports nothing: it returns the same
    suite and leaves the child as it is. *)
Theorem load_via_load_tests_cached (loader loader2 : Loader) (child : Child)
    (test_name : string) :
  let first := _load_via_load_tests loader child test_name in
  is_returned first.1 = true →
  (∀ p, p ∈ prefixes_desc (rev (PyStr.split "."%char test_name)) →
        ∃ suite,
          suite_for loader (loaded_suites child) p = Returned suite ∧
          loaded_suites first.2 !! p = Some suite) ∧
  (∀ k, k ∉ prefixes_desc (rev (PyStr.split "."%char test_name)) →
        loaded_suites first.2 !! k = loaded_suites child !! k) ∧
  worker_num first.2 = worker_num child ∧
  passthrough first.2 = passthrough child ∧
  dry_run first.2 = dry_run child ∧
  debugger first.2 = debugger child ∧
  _load_via_load_tests loader2 first.2 test_name = first.
Proof.
  intros first. subst first. unfold _load_via_load_tests.
  destruct (load_walk_spec loader test_name
              (rev (PyStr.split "."%char test_name)) (loaded_suites child) [])
    as (Hsuite & Hout & _ & Hin).
  destruct (load_walk loader test_name _ _) as [cache outcome] eqn:Hwalk.
  simpl in *. intros Hret. specialize (Hin Hret).
  split; [done |]. split; [done |]. repeat (split; [done |]).
  destruct (load_walk_spec loader2 test_name
              (rev (PyStr.split "."%char test_name)) cache [])
    as (Hsuite2 & Hout2 & Hmono2 & _).
  destruct (load_walk loader2 test_name _ _) as [cache2 outcome2].
  simpl in *.
  assert (Hfor : ∀ p, p ∈ prefixes_desc (rev (PyStr.split "."%char test_name)) →
                      suite_for loader2 cache p
                      = suite_for loader (loaded_suites child) p).
  { intros p Hp. destruct (Hin p Hp) as (suite & -> & Hlook).
    unfold suite_for. by rewrite Hlook. }
  f_equal.
  - rewrite Hsuite2, Hsuite.
    rewrite (map_ext_in
               (λ p, match_at test_name (suite_for loader2 cache p))
               (λ p, match_at test_name
                       (suite_for loader (loaded_suites child) p))); [done |].
    intros p Hp. rewrite Hfor; [done | by apply list_elem_of_In].
  - unfold set_loaded_suites. simpl. f_equal.
    apply map_eq. intros k.
    destruct (decide (k ∈ prefixes_desc (rev (PyStr.split "."%char test_name))))
      as [Hk | Hk].
    + destruct (Hin k Hk) as (suite & _ & Hlook).
      rewrite Hlook. by apply Hmono2.
    + by rewrite Hout2.
Qed.

(** The name [pkg.mod.test_a] with the modules [pkg.mod] and [pkg]: after
    the first fallback load a second one returns the same, also when every
    import would now raise. *)
Lemma load_via_load_tests_cached_witness :
  _load_via_load_tests
    (mkLoader (λ _, inl "gone") (λ _, Raised (SyntaxError "gone")))
    (_load_via_load_tests two_entry_points (Child_start 1) "pkg.mod.test_a").2
    "pkg.mod.test_a"
  = _load_via_load_tests two_entry_points (Child_start 1) "pkg.mod.test_a".
Proof.
  refine (proj2 (proj2 (proj2 (proj2 (proj2 (proj2
            (load_via_load_tests_cached two_entry_points
               (mkLoader (λ _, inl "gone") (λ _, Raised (SyntaxError "gone")))
               (Child_start 1) "pkg.mod.test_a" _))))))).
  vm_compute. reflexivity.
Defined.

(** ** Running one test *)

Lemma string_prefix_append s : ∀ t, String.prefix s (s +:+ t) = true.
Proof.
  induction s as [| c s IH]; intros t; simpl; [by destruct t |].
  destruct (Ascii.ascii_dec c c); [apply IH | done].
Qed.

(** X19: the fields of every Result built by [_result_from_test_result]
    agree with each other: [unexpected] is set exactly when the actual
    outcome is not the expected one, the code is 1 exactly for a Failure
    and 0 otherwise, one outcome is expected, the captured output is passed
    on unchanged, and the error text starts with the captured error text
    (and is exactly it when the test passed). *)
Theorem result_fields_consistent (test_result : TestResult)
    (test_name : string) (start took0 : Z) (out0 err0 : string)
    (worker_num pid0 : Z) :
  let r := _result_from_test_result test_result test_name start took0 out0
             err0 worker_num pid0 in
  unexpected r = bool_decide (actual r ∉ expected r) ∧
  code r = (if bool_decide (actual r = Failure) then 1 else 0) ∧
  length (expected r) = 1%nat ∧
  out r = out0 ∧
  String.prefix err0 (err r) = true ∧
  (if bool_decide (actual r = Pass) then err r = err0 else True).
Proof.
  assert (Hself : String.prefix err0 err0 = true).
  { clear. induction err0 as [| c s IH]; simpl; [done |].
    by destruct (Ascii.ascii_dec c c). }
  unfold _result_from_test_result.
  repeat case_match; simpl;
    repeat split; try done; try apply string_prefix_append.
Qed.



(** ** The parser: what it accepts and what it normalises *)





(** X22: what [parse_args] leaves in the namespace.  The suffixes and the
    coverage omissions are never empty and [overwrite] is always decided;
    [--debugger] and [--coverage] each force one job, and without them the
    number of jobs is the one given; [--debugger] also turns passthrough
    on.  Parsing the returned namespace again changes nothing: the
    namespace, the status and the lines are the same. *)
Theorem parse_args_normalises (py_major : Z) (isatty : bool) (rargs : Args) :
  let parsed := parse_args py_major isatty rargs in
  args_suffixes parsed.1.1 ≠ [] ∧
  args_coverage_omit parsed.1.1 ≠ [] ∧
  is_Some (args_overwrite parsed.1.1) ∧
  (args_overwrite rargs = None →
     args_overwrite parsed.1.1
     = Some (isatty && (args_verbose rargs =? 0)%Z)) ∧
  args_jobs parsed.1.1
    = (if args_debugger rargs || args_coverage rargs then 1
       else args_jobs rargs) ∧
  args_passthrough parsed.1.1
    = (args_debugger rargs || args_passthrough rargs) ∧
  parse_args py_major isatty parsed.1.1 = parsed.
Proof.
  intros parsed. subst parsed. split_and!.
  - unfold parse_args. simpl. destruct (args_suffixes rargs); simpl; done.
  - unfold parse_args. simpl. destruct (args_coverage_omit rargs); simpl; done.
  - unfold parse_args. simpl. by destruct (args_overwrite rargs).
  - unfold parse_args. simpl. by intros ->.
  - unfold parse_args. simpl.
    by destruct (args_debugger rargs), (args_coverage rargs).
  - unfold parse_args. simpl. by destruct (args_debugger rargs).
  - unfold parse_args. cbn [fst snd]. simpl.
    destruct (args_suffixes rargs), (args_coverage_omit rargs),
      (args_overwrite rargs), (args_debugger rargs), (args_coverage rargs);
      reflexivity.
Qed.

(** ** The trace *)

Lemma trace_other_data_eq metadata : ∀ other,
  Forall (λ m, PyStr.count "="%char m = 1%nat) metadata →
  trace_other_data metadata other
  = Returned (fold_left
                (λ acc m, <[before_first "="%char m :=
                            after_first "="%char m]> acc)
                metadata other).
Proof.
  induction metadata as [| m metadata IH]; intros other Hall; simpl; [done |].
  apply Forall_cons in Hall as [Hm Hall].
  unfold unpack_key_value. rewrite (split_one_separator _ _ Hm).
  by apply IH.
Qed.

Lemma trace_other_data_returns metadata : ∀ other,
  is_returned (trace_other_data metadata other) = true ↔
  Forall (λ m, PyStr.count "="%char m = 1%nat) metadata.
Proof.
  induction metadata as [| m metadata IH]; intros other; simpl.
  - split; [constructor | done].
  - rewrite Forall_cons, <- unpack_key_value_returns.
    destruct (unpack_key_value m) as [[k v] | e]; simpl.
    + rewrite IH. naive_solver.
    + naive_solver.
Qed.

(** X23: [_trace_from_results] returns a trace exactly when every
    [--metadata] entry has exactly one ['='] (an entry with none or with
    several raises [ValueError], whatever the Results are).  The trace then
    has one event for each Result, in the order of the Results, named after
    it, and [otherData] maps the text before the ['='] of an entry to the
    text after it; when several entries have the same key the last one
    wins. *)
Theorem trace_from_results_returns (args : Args) (started_time : Z)
    (results : list Result) :
  (is_returned (_trace_from_results args started_time results) = true ↔
   Forall (λ m, PyStr.count "="%char m = 1%nat) (args_metadata args)) ∧
  (∀ trace, _trace_from_results args started_time results = Returned trace →
     map ev_name (traceEvents trace) = map name results ∧
     map ev_args (traceEvents trace) = results ∧
     otherData trace
     = list_to_map
         (rev (map (λ m, (before_first "="%char m, after_first "="%char m))
                   (args_metadata args))) ∧
     (∀ earlier m, args_metadata args = earlier ++ [m] →
        otherData trace !! before_first "="%char m
        = Some (after_first "="%char m))).
Proof.
  unfold _trace_from_results. split.
  - rewrite <- (trace_other_data_returns (args_metadata args) ∅).
    by destruct (trace_other_data _ _).
  - intros trace Htrace.
    destruct (trace_other_data (args_metadata args) ∅) as [other | e] eqn:Hother;
      [| discriminate].
    injection Htrace as <-. simpl.
    rewrite !map_map. simpl. rewrite map_id.
    split; [done |]. split; [done |].
    assert (Hdata : other
              = list_to_map
                  (rev (map (λ m, (before_first "="%char m,
                                   after_first "="%char m))
                            (args_metadata args))));
      [| split; [done |]; intros earlier m Hlast; rewrite Hdata, Hlast;
         rewrite map_app, rev_app_distr; simpl; apply lookup_insert_eq].
    assert (Hall : Forall (λ m, PyStr.count "="%char m = 1%nat)
                          (args_metadata args)).
    { apply (trace_other_data_returns _ ∅). by rewrite Hother. }
    rewrite (trace_other_data_eq _ _ Hall) in Hother.
    injection Hother as <-.
    clear.
    assert (Hgen : ∀ (l : list string) (other : gmap string string),
              fold_left (λ acc m, <[before_first "="%char m :=
                                    after_first "="%char m]> acc) l other
              = foldr (λ kv acc, <[kv.1 := kv.2]> acc) other
                  (rev (map (λ m, (before_first "="%char m,
                                   after_first "="%char m)) l))).
    { induction l as [| m l IH]; intros other; simpl; [done |].
      rewrite IH, foldr_app. done. }
    rewrite Hgen. reflexivity.
Qed.

(** ** The buckets of the default classifier *)

(** X24: the default classifier sorts every test of a suite into exactly
    one bucket and keeps the order of the suite inside each bucket: the
    tests matching a skip glob go to [tests_to_skip] with the message
    "skipped by request" (also when they match an isolate glob as well), of
    the others those matching an isolate glob go to [isolated_tests], the
    rest to [parallel_tests]; what the buckets held before stays in front.
    So the buckets grow by as many inputs as the suite has tests. *)
Theorem add_tests_buckets (fnmatch : string → string → bool) (args : Args)
    (test_set : TestSet) (suite : Suite) :
  let skips t := _matches fnmatch (tc_id t) (args_skip args) in
  let isolates t := _matches fnmatch (tc_id t) (args_isolate args) in
  let added := add_tests fnmatch args test_set suite in
  parallel_tests added
  = parallel_tests test_set ++
    map (λ t, TestInput_of (tc_id t))
        (List.filter (λ t, negb (skips t) && negb (isolates t)) suite) ∧
  isolated_tests added
  = isolated_tests test_set ++
    map (λ t, TestInput_of (tc_id t))
        (List.filter (λ t, negb (skips t) && isolates t) suite) ∧
  tests_to_skip added
  = tests_to_skip test_set ++
    map (λ t, TestInput_msg (tc_id t) "skipped by request")
        (List.filter skips suite) ∧
  (length (parallel_tests added) + length (isolated_tests added) +
   length (tests_to_skip added)
   = length (parallel_tests test_set) + length (isolated_tests test_set) +
     length (tests_to_skip test_set) + length suite)%nat.
Proof.
  intros skips isolates added. subst added. unfold add_tests.
  revert test_set. induction suite as [| t suite IH]; intros test_set.
  - simpl. rewrite !app_nil_r. split_and!; try done; lia.
  - cbn [fold_left List.filter].
    destruct (IH (default_classifier fnmatch args test_set t))
      as (Hpar & Hiso & Hskip & Hlen).
    rewrite Hpar, Hiso, Hskip in *. clear Hpar Hiso Hskip.
    unfold default_classifier in *. subst skips isolates. cbn beta in *.
    destruct (_matches fnmatch (tc_id t) (args_skip args));
      [| destruct (_matches fnmatch (tc_id t) (args_isolate args))];
      cbn [negb andb parallel_tests isolated_tests tests_to_skip map] in *;
      rewrite <- ?app_assoc; cbn [app];
      (split_and!; try done);
      rewrite ?length_app in *; cbn [length] in *; lia.
Qed.

(** ** Before the first pass *)

Lemma sorted_names l :
  StronglySorted name_le l →
  StronglySorted (λ a b, String.leb a b = true) (map ti_name l).
Proof.
  induction 1 as [| x l Hsorted IH Hall]; simpl; constructor; [done |].
  apply Forall_fmap. by apply (Forall_impl _ _ _ Hall).
Qed.

(** X25: how [_run_tests] starts.  With nothing in the parallel and the
    isolated bucket it prints "No tests to run." and returns 1 without a
    results document, also when tests are to be skipped and also with
    [--list-only]; no Result is made for the skipped tests.  Otherwise
    [--list-only] prints one line holding the names of all three buckets
    (those to skip included), sorted by name, each as often as it occurs,
    and returns 0 without a document; without [--list-only] the passes
    begin. *)
Theorem run_tests_start (args : Args) (test_set : TestSet) :
  (parallel_tests test_set = [] → isolated_tests test_set = [] →
   run_tests_before_passes args test_set
   = (Some (1, None), ["No tests to run."])) ∧
  (parallel_tests test_set ++ isolated_tests test_set ≠ [] →
   run_tests_before_passes args test_set
   = if args_list_only args
     then (Some (0, None), [PyStr.join newline (all_tests test_set)])
     else (None, [])) ∧
  all_tests test_set
    ≡ₚ map ti_name (parallel_tests test_set ++ isolated_tests test_set ++
                    tests_to_skip test_set) ∧
  StronglySorted (λ a b, String.leb a b = true) (all_tests test_set).
Proof.
  unfold run_tests_before_passes, all_tests. split_and!.
  - by intros -> ->.
  - intros Hsome.
    destruct (parallel_tests test_set), (isolated_tests test_set); done.
  - apply fmap_Permutation, sort_inputs_perm.
  - apply sorted_names, sort_inputs_sorted.
Qed.

(** ** The test adder *)

Lemma add_leaves_app classifier l1 : ∀ l2 test_set,
  add_leaves classifier (l1 ++ l2) test_set
  = match add_leaves classifier l1 test_set with
    | inl e => inl e
    | inr test_set1 => add_leaves classifier l2 test_set1
    end.
Proof.
  induction l1 as [| [[test method_name] method_raises] l1 IH];
    intros l2 test_set; simpl; [done |].
  destruct (add_case _ _ _ _ _); [done | apply IH].
Qed.

(** Nesting does not matter to [add_tests]: it treats a suite as the list
    of its leaves. *)
Lemma add_tests_obj_leaves classifier obj : ∀ test_set,
  add_tests_obj classifier obj test_set
  = add_leaves classifier (leaves obj) test_set.
Proof.
  induction obj as [els IH | test method_name method_raises]
    using SuiteObj_nested_ind; intros test_set.
  - cbn [add_tests_obj leaves]. revert test_set.
    induction IH as [| el rest Hel _ IHrest]; intros test_set; [done |].
    cbn [flat_map]. rewrite add_leaves_app, <- Hel.
    destruct (add_tests_obj classifier el test_set); [done | apply IHrest].
  - simpl. by destruct (add_case _ _ _ _ _).
Qed.

Lemma add_leaves_no_failure classifier ls : ∀ test_set,
  Forall (λ l, is_load_failure l.1.1 = true → l.2 = None) ls →
  add_leaves classifier ls test_set
  = inr (fold_left classifier
           (List.filter (λ t, negb (is_load_failure t))
                        (map (λ l, l.1.1) ls))
           test_set).
Proof.
  induction ls as [| [[test method_name] method_raises] ls IH];
    intros test_set Hall; simpl; [done |].
  apply Forall_cons in Hall as [Hhead Hall]. simpl in Hhead.
  unfold add_case. destruct (is_load_failure test); simpl.
  - rewrite (Hhead eq_refl). by apply IH.
  - by apply IH.
Qed.

(** X26: [add_tests] of [_test_adder] treats nested suites as the list of
    their leaves, from left to right.  When no load-failure placeholder
    among the leaves raises, it returns and has applied the classifier to
    every leaf that is not a placeholder, in that order, and to nothing
    else.  Otherwise it raises [_AddTestsError] for the first placeholder
    that raises, with the cause as message, prefixed by
    [<method name>.load_tests() failed: ] when the id of the placeholder
    contains [LoadTests]; what comes after that placeholder is not looked
    at. *)
Theorem test_adder_flattens (classifier : TestSet → TestCase → TestSet)
    (obj : SuiteObj) (test_set : TestSet) :
  (Forall (λ l, is_load_failure l.1.1 = true → l.2 = None) (leaves obj) →
   add_tests_obj classifier obj test_set
   = inr (fold_left classifier
            (List.filter (λ t, negb (is_load_failure t))
                         (map (λ l, l.1.1) (leaves obj)))
            test_set)) ∧
  (∀ before test method_name e after,
     leaves obj = before ++ (test, method_name, Some e) :: after →
     is_load_failure test = true →
     Forall (λ l, is_load_failure l.1.1 = true → l.2 = None) before →
     add_tests_obj classifier obj test_set
     = inl (if str_in "LoadTests" (tc_id test)
            then method_name +:+ ".load_tests() failed: " +:+ e
            else e)).
Proof.
  rewrite add_tests_obj_leaves. split.
  - apply add_leaves_no_failure.
  - intros before test method_name e after -> Hfail Hbefore.
    rewrite add_leaves_app, (add_leaves_no_failure _ _ _ Hbefore).
    simpl. unfold add_case. rewrite Hfail.
    by destruct (str_in "LoadTests" (tc_id test)).
Qed.
